(** * AiScoPre: the prediction pipeline

    A shallow embedding of [services/model_service.py],
    [services/match_service.py] and [services/prediction_service.py],
    followed by [services/team_service.py],
    [services/feature_service.py], [services/user_service.py], the
    [/predict] and [/wc2026] endpoints of [services/gateway.py], and
    the part of [scripts/scrape_wc2026.py] that gets the HTML.

    Conventions of the embedding.
    - A Python [float] is a real number: rounding is not modelled, and
      neither are the infinities.  What is kept of the float world is
      control flow: [math.exp] raises [OverflowError] when its result
      does not fit a double.  NaN is kept in [ModelServiceNaN], where
      the outcome model is embedded once more on floats that are real
      numbers or NaN.
    - A Python exception is the [Raise] branch of [outcome].
    - A gRPC servicer method returns the status code left in its
      context together with the response message; the client stub
      turns every status other than [OK] into a raised [RpcError].
    - Mutable objects ([SimplePredictionCache._data], the clock, the
      calls that leave the process) live in an explicit state that the
      methods of the prediction servicer thread through. *)

From Stdlib Require Import Reals Lra Lia List ZArith.
From stdpp Require Import gmap strings pretty.
Import ListNotations.

Local Open Scope R_scope.

(** ** gRPC: status codes, exceptions, stubs *)

Module Grpc.

Inductive StatusCode : Type :=
  | OK
  | INVALID_ARGUMENT
  | NOT_FOUND
  | UNAVAILABLE
  | UNKNOWN.

(** The exceptions that occur in the modelled files. *)
Inductive exn : Type :=
  | RpcError (code : StatusCode)
  | OverflowError.

Inductive outcome (A : Type) : Type :=
  | Return (a : A)
  | Raise (e : exn).
Arguments Return {A} a.
Arguments Raise {A} e.

(** What a servicer method hands back to the server: the code set on
    [context] ([OK] unless [set_code] was called) and the response. *)
Definition reply (A : Type) : Type := (StatusCode * A)%type.

(** A unary call through a client stub.  A reply with status [OK] is
    returned; any other status is raised as [RpcError]; an exception
    that escapes the servicer reaches the client as status [UNKNOWN]. *)
Definition stub_call {A : Type} (served : outcome (reply A)) : outcome A :=
  match served with
  | Return (OK, resp) => Return resp
  | Return (code, _) => Raise (RpcError code)
  | Raise _ => Raise (RpcError UNKNOWN)
  end.

End Grpc.

Import Grpc.

(** ** services/model_service.py *)

Module ModelService.

(** Python's [max(a, b)]: the first argument unless the second is
    strictly greater. *)
Definition py_max (a b : R) : R := if Rlt_dec a b then b else a.

(** Results of magnitude [2^1024] and above do not fit a double. *)
Definition DBL_RANGE : R := IZR (2 ^ 1024).

(** [math.exp]: the exponential, or [OverflowError] ("math range
    error") when the result is out of the range of a double. *)
Definition math_exp (x : R) : outcome R :=
  if Rlt_dec (exp x) DBL_RANGE then Return (exp x) else Raise OverflowError.

(** [_sigmoid(x)]: [1.0 / (1.0 + math.exp(-x))]. *)
Definition _sigmoid (x : R) : outcome R :=
  match math_exp (- x) with
  | Return e => Return (1 / (1 + e))
  | Raise err => Raise err
  end.

Record PredictMatchOutcomeResponse : Type := mkModelResp {
  home_win_prob : R;
  draw_prob : R;
  away_win_prob : R
}.

(** The message built with no arguments: every field at its default. *)
Definition empty_response : PredictMatchOutcomeResponse := mkModelResp 0 0 0.

(** The last step of [PredictMatchOutcome]: divide by the total, or
    fall back on one third each when the total is not positive. *)
Definition normalize (home draw away : R) : PredictMatchOutcomeResponse :=
  let total := home + draw + away in
  if Rle_dec total 0
  then mkModelResp (1 / 3) (1 / 3) (1 / 3)
  else mkModelResp (home / total) (draw / total) (away / total).

(** The three numbers before normalisation, from the base score's
    sigmoid and [elo_diff]. *)
Definition raw_draw (elo_diff : R) : R :=
  py_max (15 / 100) (35 / 100 - Rabs elo_diff / 1000).

Definition raw_away (home draw : R) : R := py_max 0 (1 - home - draw).

Definition base_score (elo_diff is_knockout : R) : R :=
  let base := elo_diff / 300 in
  if Rlt_dec (5 / 10) is_knockout then base * (12 / 10) else base.

(** [ModelServiceServicer.PredictMatchOutcome].  Past the length
    check, [features[:4]] is unpacked; only its last two names are
    used. *)
Definition PredictMatchOutcome (features : list R)
  : outcome (reply PredictMatchOutcomeResponse) :=
  if (length features <? 4)%nat
  then Return (INVALID_ARGUMENT, empty_response)
  else
    let elo_diff := nth 2 features 0 in
    let is_knockout := nth 3 features 0 in
    match _sigmoid (base_score elo_diff is_knockout) with
    | Raise err => Raise err
    | Return home =>
        let draw := raw_draw elo_diff in
        let away := raw_away home draw in
        Return (OK, normalize home draw away)
    end.

(** Feature vectors used as examples below: ratings 2100 against 2050
    in a final, two level sides in a group match, and a side 600000
    points behind. *)
Definition final_features : list R := [2100; 2050; 50; 1].
Definition level_features : list R := [1500; 1500; 0; 0].
Definition zero_features : list R := [0; 0; 0; 0].
Definition outclassed_features : list R := [0; 0; - 600000; 0].

End ModelService.

(** ** services/model_service.py, on floats that may be NaN

    The same file once more, a [float] being now a real number or NaN.
    NaN goes through every arithmetic operation, and every comparison
    with it is false.  The divisors of the method are 300.0, 1000.0,
    one plus an exponential and a total on which [total <= 0] has
    failed, so [/] meets no zero divisor to raise on. *)

Module ModelServiceNaN.

Inductive pyfloat : Type :=
  | Num (x : R)
  | NaN.

Definition arith (op : R -> R -> R) (a b : pyfloat) : pyfloat :=
  match a, b with
  | Num x, Num y => Num (op x y)
  | _, _ => NaN
  end.

Definition add : pyfloat -> pyfloat -> pyfloat := arith Rplus.
Definition sub : pyfloat -> pyfloat -> pyfloat := arith Rminus.
Definition mul : pyfloat -> pyfloat -> pyfloat := arith Rmult.
Definition div : pyfloat -> pyfloat -> pyfloat := arith Rdiv.

Definition neg (a : pyfloat) : pyfloat :=
  match a with
  | Num x => Num (- x)
  | NaN => NaN
  end.

(** [abs(a)]. *)
Definition py_abs (a : pyfloat) : pyfloat :=
  match a with
  | Num x => Num (Rabs x)
  | NaN => NaN
  end.

(** [a > b] and [a <= b]. *)
Definition gt (a b : pyfloat) : bool :=
  match a, b with
  | Num x, Num y => if Rlt_dec y x then true else false
  | _, _ => false
  end.

Definition le (a b : pyfloat) : bool :=
  match a, b with
  | Num x, Num y => if Rle_dec x y then true else false
  | _, _ => false
  end.

(** Python's [max(a, b)]: [b] when [b > a], and [a] otherwise, so also
    when one of the two is NaN. *)
Definition py_max (a b : pyfloat) : pyfloat := if gt b a then b else a.

(** [math.exp]: NaN on NaN, without an error. *)
Definition math_exp (x : pyfloat) : outcome pyfloat :=
  match x with
  | NaN => Return NaN
  | Num r =>
      match ModelService.math_exp r with
      | Return e => Return (Num e)
      | Raise err => Raise err
      end
  end.

(** [_sigmoid(x)]: [1.0 / (1.0 + math.exp(-x))]. *)
Definition _sigmoid (x : pyfloat) : outcome pyfloat :=
  match math_exp (neg x) with
  | Return e => Return (div (Num 1) (add (Num 1) e))
  | Raise err => Raise err
  end.

Record PredictMatchOutcomeResponse : Type := mkResponse {
  home_win_prob : pyfloat;
  draw_prob : pyfloat;
  away_win_prob : pyfloat
}.

Definition empty_response : PredictMatchOutcomeResponse :=
  mkResponse (Num 0) (Num 0) (Num 0).

(** [ModelServiceServicer.PredictMatchOutcome], statement by
    statement. *)
Definition PredictMatchOutcome (features : list pyfloat)
  : outcome (reply PredictMatchOutcomeResponse) :=
  if (length features <? 4)%nat
  then Return (INVALID_ARGUMENT, empty_response)
  else
    let elo_diff := nth 2 features NaN in
    let is_knockout := nth 3 features NaN in
    let base := div elo_diff (Num 300) in
    let base :=
      if gt is_knockout (Num (5 / 10)) then mul base (Num (12 / 10))
      else base in
    match _sigmoid base with
    | Raise err => Raise err
    | Return home =>
        let elo_gap := py_abs elo_diff in
        let draw :=
          py_max (Num (15 / 100))
            (sub (Num (35 / 100)) (div elo_gap (Num 1000))) in
        let away := py_max (Num 0) (sub (sub (Num 1) home) draw) in
        let total := add (add home draw) away in
        if le total (Num 0)
        then
          let third := div (Num 1) (Num 3) in
          Return (OK, mkResponse third third third)
        else
          Return (OK, mkResponse (div home total) (div draw total)
                        (div away total))
    end.

(** A response of numbers, and a knockout flag as the test
    [is_knockout > 0.5] reads it: NaN fails the test, as 0 does. *)
Definition of_numbers (r : ModelService.PredictMatchOutcomeResponse)
  : PredictMatchOutcomeResponse :=
  mkResponse (Num (ModelService.home_win_prob r))
    (Num (ModelService.draw_prob r))
    (Num (ModelService.away_win_prob r)).

Definition flag_read (is_knockout : pyfloat) : R :=
  match is_knockout with
  | Num k => k
  | NaN => 0
  end.

(** Four features with a rating difference that is NaN, and two level
    sides in a group match. *)
Definition nan_features : list pyfloat := [Num 0; Num 0; NaN; Num 0].
Definition level_features : list pyfloat :=
  [Num 1500; Num 1500; Num 0; Num 0].

End ModelServiceNaN.

(** ** services/match_service.py *)

Module MatchService.

Record Match : Type := mkMatch {
  id : string;
  home_team_id : string;
  away_team_id : string;
  kick_off_utc : string;
  stage : string
}.

(** [common_pb2.Match()] with every field at its default. *)
Definition empty_match : Match :=
  mkMatch EmptyString EmptyString EmptyString EmptyString EmptyString.

(** [MatchRepository._matches]; the event lists play no part here. *)
Abbreviation MatchRepository := (gmap string Match).

Definition add_match (repo : MatchRepository) (m : Match) : MatchRepository :=
  <[id m := m]> repo.

Definition get_match (repo : MatchRepository) (match_id : string)
  : option Match :=
  repo !! match_id.

Record GetMatchResponse : Type := mkGetMatchResponse { match_ : Match }.

(** [MatchServiceServicer.GetMatch]. *)
Definition GetMatch (repo : MatchRepository) (match_id : string)
  : outcome (reply GetMatchResponse) :=
  match get_match repo match_id with
  | None => Return (NOT_FOUND, mkGetMatchResponse empty_match)
  | Some m => Return (OK, mkGetMatchResponse m)
  end.

(** The repository [serve] starts with. *)
Definition demo_match : Match :=
  mkMatch "1" "ARG" "FRA" "2022-12-18T15:00:00Z" "Final".

Definition demo_repo : MatchRepository := add_match ∅ demo_match.

End MatchService.

(** ** services/prediction_service.py *)

Module PredictionService.

Import MatchService.

(** A cache entry: [(timestamp, home, draw, away)]. *)
Abbreviation Entry := (R * R * R * R)%type.

(** What the servicer does that is visible outside its own frame. *)
Inductive event : Type :=
  | CallGetMatch (match_id : string)
  | CallBuildMatchFeatures (match_id : string)
  | CallPredictMatchOutcome (features : list R)
  | CacheGet (match_id : string)
  | CacheSet (match_id : string) (entry : Entry)
  | Sleep (seconds : R).

(** [cache_data] is [SimplePredictionCache._data], [clock] is what
    [time.time()] reads, [trace] records the events so far. *)
Record State : Type := mkState {
  cache_data : gmap string Entry;
  clock : R;
  trace : list event
}.

Record BuildMatchFeaturesResponse : Type :=
  mkBuildMatchFeaturesResponse { features : list R }.

(** The three stubs held by the servicer.  Each one is the remote call
    as the client sees it; the answer may depend on when it is asked. *)
Record PredictionServiceServicer : Type := mkServicer {
  _feature_stub : R -> string -> outcome BuildMatchFeaturesResponse;
  _model_stub :
    R -> list R -> outcome ModelService.PredictMatchOutcomeResponse;
  _match_stub : R -> string -> outcome GetMatchResponse
}.

Record GetPredictionResponse : Type := mkGetPredictionResponse {
  match_id : string;
  match_info : Match;
  home_win_prob : R;
  draw_prob : R;
  away_win_prob : R
}.

(** *** A state and exception monad *)

Definition M (A : Type) : Type := State -> outcome A * State.

Definition ret {A : Type} (a : A) : M A := fun s => (Return a, s).

Definition bind {A B : Type} (c : M A) (k : A -> M B) : M B :=
  fun s =>
    match c s with
    | (Return a, s') => k a s'
    | (Raise e, s') => (Raise e, s')
    end.

Notation "x <- c ;; k" := (bind c (fun x => k))
  (at level 100, c at next level, right associativity).
Notation "c ;;; k" := (bind c (fun _ => k))
  (at level 100, right associativity).

Definition emit (ev : event) (s : State) : State :=
  mkState (cache_data s) (clock s) (trace s ++ [ev]).

(** [time.time()] and [time.sleep(seconds)]. *)
Definition time_time : M R := fun s => (Return (clock s), s).

Definition time_sleep (seconds : R) : M unit :=
  fun s =>
    (Return tt,
     mkState (cache_data s) (clock s + seconds) (trace s ++ [Sleep seconds])).

(** [SimplePredictionCache.get] and [SimplePredictionCache.set]. *)
Definition cache_get (match_id : string) : M (option Entry) :=
  fun s => (Return (cache_data s !! match_id), emit (CacheGet match_id) s).

Definition cache_set (match_id : string) (timestamp home draw away : R)
  : M unit :=
  fun s =>
    let entry := (timestamp, home, draw, away) in
    (Return tt,
     mkState (<[match_id := entry]> (cache_data s)) (clock s)
       (trace s ++ [CacheSet match_id entry])).

(** A call through one of the stubs: recorded, then answered. *)
Definition call {A : Type} (ev : event) (answer : R -> outcome A) : M A :=
  fun s => (answer (clock s), emit ev s).

Section Servicer.

Variable self : PredictionServiceServicer.

(** [PredictionServiceServicer._compute_prediction]. *)
Definition _compute_prediction (match_id : string) : M GetPredictionResponse :=
  match_resp <- call (CallGetMatch match_id)
                  (fun t => _match_stub self t match_id) ;;
  let match_info := match_ match_resp in
  feature_resp <- call (CallBuildMatchFeatures match_id)
                    (fun t => _feature_stub self t match_id) ;;
  model_resp <- call (CallPredictMatchOutcome (features feature_resp))
                  (fun t => _model_stub self t (features feature_resp)) ;;
  now_ts <- time_time ;;
  cache_set match_id now_ts
    (ModelService.home_win_prob model_resp)
    (ModelService.draw_prob model_resp)
    (ModelService.away_win_prob model_resp) ;;;
  ret (mkGetPredictionResponse match_id match_info
         (ModelService.home_win_prob model_resp)
         (ModelService.draw_prob model_resp)
         (ModelService.away_win_prob model_resp)).

(** [PredictionServiceServicer.GetPrediction], on [request.match_id].
    A cached tuple is never empty, so [if cached] asks whether there
    is an entry. *)
Definition GetPrediction (match_id : string) : M GetPredictionResponse :=
  cached <- cache_get match_id ;;
  match cached with
  | Some (ts, home, draw, away) =>
      now_ts <- time_time ;;
      if Rlt_dec (now_ts - ts) 10
      then
        match_resp <- call (CallGetMatch match_id)
                        (fun t => _match_stub self t match_id) ;;
        ret (mkGetPredictionResponse match_id (match_ match_resp)
               home draw away)
      else _compute_prediction match_id
  | None => _compute_prediction match_id
  end.

(** *** [StreamPrediction]: a generator

    The method is a generator function.  A generator object is either
    not started yet, suspended at its [yield], or finished; the server
    drives it with [next], and drops it when the subscriber goes. *)

Inductive generator : Type :=
  | Created
  | Suspended
  | Finished.

(** What one [next] gives: a yielded value, [StopIteration], or an
    exception that leaves the generator. *)
Inductive pulled : Type :=
  | Yield (resp : GetPredictionResponse)
  | StopIteration
  | Escaped (e : exn).

(** From the top of [while True] to the next suspension.  An
    [RpcError] raised by [_compute_prediction] is caught by the
    [except grpc.RpcError] clause around the loop; the method then
    returns.  Any other exception leaves the generator. *)
Definition loop_iteration (match_id : string) (s : State)
  : pulled * generator * State :=
  match _compute_prediction match_id s with
  | (Return resp, s') => (Yield resp, Suspended, s')
  | (Raise (RpcError _), s') => (StopIteration, Finished, s')
  | (Raise e, s') => (Escaped e, Finished, s')
  end.

(** [next] on the generator made by [StreamPrediction(request, _)].
    Resuming after the [yield] first runs [time.sleep(5.0)]. *)
Definition StreamPrediction_next (match_id : string) (g : generator)
  (s : State) : pulled * generator * State :=
  match g with
  | Created => loop_iteration match_id s
  | Suspended =>
      match time_sleep 5 s with
      | (_, s') => loop_iteration match_id s'
      end
  | Finished => (StopIteration, Finished, s)
  end.


(** The server pulling [n] times, or until the generator is done.
    The yielded responses are returned oldest first. *)
Fixpoint StreamPrediction_take (n : nat) (match_id : string)
  (g : generator) (s : State)
  : list GetPredictionResponse * generator * State :=
  match n with
  | O => ([], g, s)
  | S n' =>
      match StreamPrediction_next match_id g s with
      | (Yield resp, g', s') =>
          match StreamPrediction_take n' match_id g' s' with
          | (rest, g'', s'') => (resp :: rest, g'', s'')
          end
      | (_, g', s') => ([], g', s')
      end
  end.

End Servicer.

(** *** Vocabulary of the statements *)

(** The freshness test on lines 94-98 of [GetPrediction], with the
    window as a parameter; the method fixes it at 10 seconds. *)
Definition get_if_fresh (max_age : R) (match_id : string)
  : M (option (R * R * R)) :=
  cached <- cache_get match_id ;;
  match cached with
  | Some (ts, home, draw, away) =>
      now_ts <- time_time ;;
      if Rlt_dec (now_ts - ts) max_age
      then ret (Some (home, draw, away))
      else ret None
  | None => ret None
  end.

Section Vocabulary.

Variable self : PredictionServiceServicer.

(** What the hit path answers: the metadata just fetched, with the
    cached probabilities. *)
Definition hit_answer (match_id : string) (t home draw away : R)
  : outcome GetPredictionResponse :=
  match _match_stub self t match_id with
  | Return mr =>
      Return (mkGetPredictionResponse match_id (match_ mr) home draw away)
  | Raise e => Raise e
  end.

Definition looked_up (match_id : string) (s : State) : State :=
  emit (CacheGet match_id) s.

(** No entry, or one that is 10 seconds old or more. *)
Definition stale (match_id : string) (s : State) : Prop :=
  forall ts home draw away,
    cache_data s !! match_id = Some (ts, home, draw, away) ->
    ~ clock s - ts < 10.

(** The exception, if any, that a full computation for [match_id]
    meets when the three stubs are asked at time [t]: the first one
    raised, in the order of the calls. *)
Definition first_failure (match_id : string) (t : R) : option exn :=
  match _match_stub self t match_id with
  | Raise e => Some e
  | Return _ =>
      match _feature_stub self t match_id with
      | Raise e => Some e
      | Return feature_resp =>
          match _model_stub self t (features feature_resp) with
          | Raise e => Some e
          | Return _ => None
          end
      end
  end.

(** The state a successful computation at [s] ends in. *)
Definition computed_state (match_id : string) (fs : list R)
  (entry : Entry) (s : State) : State :=
  mkState (<[match_id := entry]> (cache_data s)) (clock s)
    (trace s ++ [CallGetMatch match_id; CallBuildMatchFeatures match_id;
                 CallPredictMatchOutcome fs; CacheSet match_id entry]).

Definition response_of (match_id : string) (mr : GetMatchResponse)
  (pr : ModelService.PredictMatchOutcomeResponse) : GetPredictionResponse :=
  mkGetPredictionResponse match_id (match_ mr)
    (ModelService.home_win_prob pr) (ModelService.draw_prob pr)
    (ModelService.away_win_prob pr).

Definition entry_of (t : R) (pr : ModelService.PredictMatchOutcomeResponse)
  : Entry :=
  (t, ModelService.home_win_prob pr, ModelService.draw_prob pr,
   ModelService.away_win_prob pr).

(** An event that is not a cache write. *)
Definition not_a_write (ev : event) : Prop :=
  match ev with CacheSet _ _ => False | _ => True end.

(** Every way [_compute_prediction] can end. *)
Inductive computation (match_id : string) (s : State)
  : outcome GetPredictionResponse -> State -> Prop :=
  | computation_done mr fr pr :
      _match_stub self (clock s) match_id = Return mr ->
      _feature_stub self (clock s) match_id = Return fr ->
      _model_stub self (clock s) (features fr) = Return pr ->
      computation match_id s (Return (response_of match_id mr pr))
        (computed_state match_id (features fr) (entry_of (clock s) pr) s)
  | computation_failed e evs :
      first_failure match_id (clock s) = Some e ->
      Forall not_a_write evs ->
      computation match_id s (Raise e)
        (mkState (cache_data s) (clock s) (trace s ++ evs)).

(** The state in which the loop body starts when [next] is called. *)
Definition resume (g : generator) (s : State) : State :=
  match g with
  | Suspended => snd (time_sleep 5 s)
  | _ => s
  end.

(** The states the servicer can be in: it starts with an empty cache,
    time passes, and requests and stream pulls come in. *)
Inductive reachable : State -> Prop :=
  | reachable_start (t : R) : reachable (mkState ∅ t [])
  | reachable_later (s : State) (dt : R) :
      reachable s -> 0 <= dt ->
      reachable (mkState (cache_data s) (clock s + dt) (trace s))
  | reachable_GetPrediction (s : State) (match_id : string) :
      reachable s -> reachable (snd (GetPrediction self match_id s))
  | reachable_StreamPrediction (s : State) (match_id : string)
      (g : generator) :
      reachable s -> reachable (snd (StreamPrediction_next self match_id g s)).

End Vocabulary.

(** *** Wiring the servicer to concrete services *)

(** The match stub of a servicer whose match channel leads to a
    [MatchServiceServicer] over [repo]. *)
Definition match_stub_of (repo : MatchRepository)
  : R -> string -> outcome GetMatchResponse :=
  fun _ match_id => stub_call (MatchService.GetMatch repo match_id).

(** The model stub of a servicer whose model channel leads to a
    [ModelServiceServicer]. *)
Definition model_stub_of_service
  : R -> list R -> outcome ModelService.PredictMatchOutcomeResponse :=
  fun _ fs => stub_call (ModelService.PredictMatchOutcome fs).

(** A feature stub that answers every request with the same vector,
    and one that is out of reach. *)
Definition constant_feature_stub (fs : list R)
  : R -> string -> outcome BuildMatchFeaturesResponse :=
  fun _ _ => Return (mkBuildMatchFeaturesResponse fs).

Definition unavailable_feature_stub
  : R -> string -> outcome BuildMatchFeaturesResponse :=
  fun _ _ => Raise (RpcError UNAVAILABLE).

(** The demo deployment: the repository of [match_service.serve], the
    toy model, and level ratings for the one match. *)
Definition demo_servicer : PredictionServiceServicer :=
  mkServicer (constant_feature_stub [1500; 1500; 0; 1])
    model_stub_of_service (match_stub_of demo_repo).

Definition initial_state : State := mkState ∅ 0 [].

(** The same deployment with the feature service out of reach. *)
Definition degraded_servicer : PredictionServiceServicer :=
  mkServicer unavailable_feature_stub model_stub_of_service
    (match_stub_of demo_repo).

(** The same deployment with a feature service that answers two
    features only. *)
Definition short_servicer : PredictionServiceServicer :=
  mkServicer (constant_feature_stub [1500; 1500]) model_stub_of_service
    (match_stub_of demo_repo).

(** The state [s] some time later, nothing else having happened. *)
Definition later (dt : R) (s : State) : State :=
  mkState (cache_data s) (clock s + dt) (trace s).

(** A state whose cache holds (0.5, 0.2, 0.3) for match 1, written at
    time 100 and read at time 105. *)
Definition warm_state : State :=
  mkState (<["1" := (100, 5 / 10, 2 / 10, 3 / 10)]> ∅) 105 [].

End PredictionService.

(** ** Python's [dict], in insertion order

    A [dict] lists its keys in the order of their first insertion;
    assigning to a key it already has replaces the value where it
    stands.  The association list holds one pair per key. *)

Module PyDict.

Section Dict.

Context {K V : Type} `{EqDecision K}.

Definition pydict : Type := list (K * V).

(** [d.get(k)]. *)
Fixpoint dict_get (d : pydict) (k : K) : option V :=
  match d with
  | [] => None
  | (k', v) :: d' => if decide (k = k') then Some v else dict_get d' k
  end.

(** [d[k] = v]. *)
Fixpoint dict_set (d : pydict) (k : K) (v : V) : pydict :=
  match d with
  | [] => [(k, v)]
  | (k', v') :: d' =>
      if decide (k = k') then (k, v) :: d' else (k', v') :: dict_set d' k v
  end.

(** [list(d.keys())] and [list(d.values())]. *)
Definition dict_keys (d : pydict) : list K := map fst d.
Definition dict_values (d : pydict) : list V := map snd d.

(** [k in d]. *)
Definition dict_has (d : pydict) (k : K) : bool :=
  match dict_get d k with Some _ => true | None => false end.

(** Keys are kept apart, and each value sits under the key that
    [key] reads off it. *)
Definition keyed_by (key : V -> K) (d : pydict) : Prop :=
  NoDup (dict_keys d) /\ Forall (fun kv => fst kv = key (snd kv)) d.

End Dict.

Arguments pydict K V : clear implicits.

End PyDict.

(** ** services/match_service.py, with listing and events *)

Module MatchServer.

Import PyDict.
Import MatchService(Match, mkMatch, id, home_team_id, away_team_id,
  kick_off_utc, stage, empty_match, GetMatchResponse, mkGetMatchResponse,
  match_).

(** The two fields of [common_pb2.MatchEvent] the service reads. *)
Record MatchEvent : Type := mkMatchEvent {
  event_match_id : string;
  description : string
}.

(** [MatchRepository]: [_matches] and [_events]. *)
Record MatchRepository : Type := mkRepository {
  _matches : pydict string Match;
  _events : pydict string (list MatchEvent)
}.

(** [MatchRepository()]. *)
Definition new_repository : MatchRepository := mkRepository [] [].

Definition add_match (repo : MatchRepository) (m : Match) : MatchRepository :=
  mkRepository (dict_set (_matches repo) (id m) m) (_events repo).

Definition get_match (repo : MatchRepository) (match_id : string)
  : option Match :=
  dict_get (_matches repo) match_id.

(** [if stage:] holds for a string that is not empty. *)
Definition list_matches (repo : MatchRepository) (stage_filter : option string)
  : list Match :=
  match stage_filter with
  | Some (String c rest) =>
      filter (fun m => stage m = String c rest) (dict_values (_matches repo))
  | _ => dict_values (_matches repo)
  end.

(** [self._events.setdefault(event.match_id, []).append(event)]. *)
Definition add_event (repo : MatchRepository) (event : MatchEvent)
  : MatchRepository :=
  let earlier :=
    match dict_get (_events repo) (event_match_id event) with
    | Some evs => evs
    | None => []
    end in
  mkRepository (_matches repo)
    (dict_set (_events repo) (event_match_id event) (earlier ++ [event])).

(** [MatchServiceServicer.GetMatch]. *)
Definition GetMatch (repo : MatchRepository) (match_id : string)
  : outcome (reply GetMatchResponse) :=
  match get_match repo match_id with
  | None => Return (NOT_FOUND, mkGetMatchResponse empty_match)
  | Some m => Return (OK, mkGetMatchResponse m)
  end.

(** [MatchServiceServicer.ListMatches], on [request.stage];
    [request.stage or None] turns the empty string into [None]. *)
Definition ListMatches (repo : MatchRepository) (request_stage : string)
  : outcome (reply (list Match)) :=
  let stage_filter :=
    match request_stage with
    | EmptyString => None
    | _ => Some request_stage
    end in
  Return (OK, list_matches repo stage_filter).

(** [MatchServiceServicer.PushEvent]: the repository afterwards and the
    [ok] field of the response. *)
Definition PushEvent (repo : MatchRepository) (event : MatchEvent)
  : MatchRepository * outcome (reply bool) :=
  (add_event repo event, Return (OK, true)).

(** What the service is asked to store, and the repository after a
    series of such requests, oldest first, on a new repository. *)
Inductive operation : Type :=
  | Add (m : Match)
  | Push (event : MatchEvent).

Definition perform (repo : MatchRepository) (op : operation)
  : MatchRepository :=
  match op with
  | Add m => add_match repo m
  | Push event => fst (PushEvent repo event)
  end.

Definition after (ops : list operation) : MatchRepository :=
  fold_left perform ops new_repository.

Definition added (ops : list operation) : list Match :=
  omap (fun op => match op with Add m => Some m | Push _ => None end) ops.

Definition pushed (ops : list operation) : list MatchEvent :=
  omap (fun op => match op with Push ev => Some ev | Add _ => None end) ops.

(** The events stored for a match id. *)
Definition events_for (repo : MatchRepository) (match_id : string)
  : list MatchEvent :=
  match dict_get (_events repo) match_id with
  | Some evs => evs
  | None => []
  end.

(** The [gmap] the prediction pipeline sees for a repository. *)
Definition matches_map (repo : MatchRepository) : gmap string Match :=
  list_to_map (_matches repo).

End MatchServer.

(** ** services/team_service.py *)

Module TeamService.

Import PyDict.

(** [common_pb2.Team], as [serve] builds it.  The rating is a number;
    it is read through [float(...)] by the feature service. *)
Record Team : Type := mkTeam {
  id : string;
  name : string;
  country : string;
  elo_rating : R
}.

(** [common_pb2.Team()] with every field at its default. *)
Definition empty_team : Team := mkTeam EmptyString EmptyString EmptyString 0.

(** [TeamRepository._teams]. *)
Abbreviation TeamRepository := (pydict string Team).

Definition add_team (repo : TeamRepository) (team : Team) : TeamRepository :=
  dict_set repo (id team) team.

Definition get_team (repo : TeamRepository) (team_id : string)
  : option Team :=
  dict_get repo team_id.

Definition list_teams (repo : TeamRepository) : list Team :=
  dict_values repo.

Record GetTeamResponse : Type := mkGetTeamResponse { team : Team }.

(** [TeamServiceServicer.GetTeam]. *)
Definition GetTeam (repo : TeamRepository) (team_id : string)
  : outcome (reply GetTeamResponse) :=
  match get_team repo team_id with
  | None => Return (NOT_FOUND, mkGetTeamResponse empty_team)
  | Some t => Return (OK, mkGetTeamResponse t)
  end.

(** [TeamServiceServicer.ListTeams]. *)
Definition ListTeams (repo : TeamRepository) : outcome (reply (list Team)) :=
  Return (OK, list_teams repo).

(** The repository after a series of [add_team], oldest first. *)
Definition after_adding (teams : list Team) : TeamRepository :=
  fold_left add_team teams [].

(** The repository [serve] starts with. *)
Definition demo_teams : TeamRepository :=
  add_team
    (add_team [] (mkTeam "ARG" "Argentina" "Argentina" 2100))
    (mkTeam "FRA" "France" "France" 2050).

End TeamService.

(** ** services/feature_service.py *)

Module FeatureService.

Import MatchService(Match, home_team_id, away_team_id, stage,
  GetMatchResponse, match_).
Import TeamService(Team, elo_rating, GetTeamResponse, team).
Import PredictionService(BuildMatchFeaturesResponse,
  mkBuildMatchFeaturesResponse).

(** [str.lower()] on the letters A to Z.  Other bytes are left alone:
    no character outside ASCII is lowered to a letter of "groups", so
    the test below is the one the code makes. *)
Definition lower_char (c : Ascii.ascii) : Ascii.ascii :=
  let n := Ascii.nat_of_ascii c in
  if ((65 <=? n) && (n <=? 90))%nat then Ascii.ascii_of_nat (n + 32) else c.

Fixpoint lower (s : string) : string :=
  match s with
  | EmptyString => EmptyString
  | String c rest => String (lower_char c) (lower rest)
  end.

(** [x or 1500] on a number: 1500 in place of zero. *)
Definition or_1500 (x : R) : R := if Req_dec_T x 0 then 1500 else x.

(** [1.0 if match.stage.lower() not in ("group", "groups") else 0.0]. *)
Definition is_knockout_of (stage_name : string) : R :=
  if decide (lower stage_name = "group" \/ lower stage_name = "groups")
  then 0 else 1.

(** The two stubs held by the servicer. *)
Record FeatureServiceServicer : Type := mkFeatureServicer {
  _match_stub : string -> outcome GetMatchResponse;
  _team_stub : string -> outcome GetTeamResponse
}.

(** The calls that leave the servicer. *)
Inductive asked : Type :=
  | AskMatch (match_id : string)
  | AskTeam (team_id : string).

(** [FeatureServiceServicer.BuildMatchFeatures], on
    [request.match_id]: what the method hands back, and the calls it
    made, oldest first. *)
Definition BuildMatchFeatures (self : FeatureServiceServicer)
  (match_id : string)
  : outcome (reply BuildMatchFeaturesResponse) * list asked :=
  match _match_stub self match_id with
  | Raise e => (Raise e, [AskMatch match_id])
  | Return match_resp =>
      let m := match_ match_resp in
      match _team_stub self (home_team_id m) with
      | Raise e => (Raise e, [AskMatch match_id; AskTeam (home_team_id m)])
      | Return home_resp =>
          match _team_stub self (away_team_id m) with
          | Raise e =>
              (Raise e,
               [AskMatch match_id; AskTeam (home_team_id m);
                AskTeam (away_team_id m)])
          | Return away_resp =>
              let elo_home := or_1500 (elo_rating (team home_resp)) in
              let elo_away := or_1500 (elo_rating (team away_resp)) in
              let elo_diff := elo_home - elo_away in
              let is_knockout := is_knockout_of (stage m) in
              (Return
                 (OK,
                  mkBuildMatchFeaturesResponse
                    [elo_home; elo_away; elo_diff; is_knockout]),
               [AskMatch match_id; AskTeam (home_team_id m);
                AskTeam (away_team_id m)])
          end
      end
  end.

(** The servicer of a deployment whose channels lead to a match
    service over [matches] and a team service over [teams]. *)
Definition wired (matches : MatchServer.MatchRepository)
  (teams : TeamService.TeamRepository) : FeatureServiceServicer :=
  mkFeatureServicer
    (fun match_id => stub_call (MatchServer.GetMatch matches match_id))
    (fun team_id => stub_call (TeamService.GetTeam teams team_id)).

End FeatureService.

(** ** services/user_service.py *)

Module UserService.

(** The status codes this servicer leaves in its context. *)
Inductive StatusCode : Type :=
  | OK
  | ALREADY_EXISTS
  | PERMISSION_DENIED.

(** [UserRepository]: user ids by name, passwords by user id. *)
Record UserRepository : Type := mkUserRepository {
  _users_by_name : gmap string string;
  _passwords : gmap string string
}.

(** [UserRepository()]. *)
Definition new_repository : UserRepository := mkUserRepository ∅ ∅.

(** The id given to the [n]-th user: "user-" followed by [n] in
    decimal. *)
Definition user_id_of (n : nat) : string := "user-" +:+ pretty n.

(** [UserRepository.register]: the user id, or [None] for the
    [ValueError] raised on a name already taken; and the repository
    afterwards. *)
Definition register (repo : UserRepository) (username password : string)
  : option string * UserRepository :=
  match _users_by_name repo !! username with
  | Some _ => (None, repo)
  | None =>
      let user_id := user_id_of (size (_users_by_name repo) + 1) in
      (Some user_id,
       mkUserRepository
         (<[username := user_id]> (_users_by_name repo))
         (<[user_id := password]> (_passwords repo)))
  end.

(** [UserRepository.authenticate].  [if not user_id] also turns an
    empty id away. *)
Definition authenticate (repo : UserRepository) (username password : string)
  : option string :=
  match _users_by_name repo !! username with
  | None => None
  | Some EmptyString => None
  | Some user_id =>
      if decide (_passwords repo !! user_id = Some password)
      then Some user_id
      else None
  end.

Record RegisterResponse : Type := mkRegisterResponse { registered_id : string }.

Record LoginResponse : Type := mkLoginResponse {
  user_id : string;
  token : string
}.

(** [UserServiceServicer.Register]. *)
Definition Register (repo : UserRepository) (username password : string)
  : (StatusCode * RegisterResponse) * UserRepository :=
  match register repo username password with
  | (None, repo') => ((ALREADY_EXISTS, mkRegisterResponse EmptyString), repo')
  | (Some uid, repo') => ((OK, mkRegisterResponse uid), repo')
  end.

(** [UserServiceServicer.Login].  [fresh_token] is what
    [secrets.token_hex(16)] yields on this call; the repository is
    only read. *)
Definition Login (repo : UserRepository) (fresh_token : string)
  (username password : string) : StatusCode * LoginResponse :=
  match authenticate repo username password with
  | None | Some EmptyString =>
      (PERMISSION_DENIED, mkLoginResponse EmptyString EmptyString)
  | Some uid => (OK, mkLoginResponse uid fresh_token)
  end.

(** The repository after a series of [Register] requests, oldest
    first. *)
Definition after_registrations (requests : list (string * string))
  : UserRepository :=
  fold_left (fun repo '(username, password) =>
               snd (Register repo username password))
    requests new_repository.

(** What is kept true of the repository by registrations: the names
    held are the names asked for, each id has the password of the
    first request for its name, ids are numbered from 1 to the number
    of users, and no two names share an id. *)
Definition registered (reqs : list (string * string)) : Prop :=
  let repo := after_registrations reqs in
  (forall u, _users_by_name repo !! u = None <->
             PyDict.dict_get reqs u = None) /\
  (forall u uid, _users_by_name repo !! u = Some uid ->
     exists p, PyDict.dict_get reqs u = Some p /\
               _passwords repo !! uid = Some p) /\
  (forall u uid, _users_by_name repo !! u = Some uid ->
     exists k, (1 <= k <= size (_users_by_name repo))%nat /\
               uid = user_id_of k) /\
  (forall u1 u2 uid,
     _users_by_name repo !! u1 = Some uid ->
     _users_by_name repo !! u2 = Some uid -> u1 = u2).

End UserService.

(** ** services/gateway.py *)

Module Gateway.

Import MatchService(Match, home_team_id, away_team_id).
Import PredictionService(GetPredictionResponse, match_id, match_info,
  home_win_prob, draw_prob, away_win_prob, PredictionServiceServicer, State,
  GetPrediction).

(** The dictionary [predict] returns. *)
Record PredictPayload : Type := mkPredictPayload {
  payload_match_id : string;
  payload_home_team_id : string;
  payload_away_team_id : string;
  payload_home_win_prob : R;
  payload_draw_prob : R;
  payload_away_win_prob : R
}.

(** How a request to [/predict] ends: the payload, an [HTTPException]
    with its status code, or an exception [predict] does not catch. *)
Inductive predict_result : Type :=
  | Responded (payload : PredictPayload)
  | HTTPException (status_code : nat)
  | Uncaught (e : exn).

(** [predict(match_id)], given what [stub.GetPrediction] does. *)
Definition predict (stub : string -> outcome GetPredictionResponse)
  (requested : string) : predict_result :=
  match stub requested with
  | Raise (RpcError NOT_FOUND) => HTTPException 404
  | Raise (RpcError _) => HTTPException 500
  | Raise e => Uncaught e
  | Return resp =>
      Responded
        (mkPredictPayload (match_id resp)
           (home_team_id (match_info resp)) (away_team_id (match_info resp))
           (home_win_prob resp) (draw_prob resp) (away_win_prob resp))
  end.

(** The gRPC server running [PredictionServiceServicer.GetPrediction]:
    the method never sets a status code, so what it returns goes out
    with [OK], and what it raises is left to the server. *)
Definition served_GetPrediction (servicer : PredictionServiceServicer)
  (requested : string) (s : State)
  : outcome (reply GetPredictionResponse) * State :=
  match GetPrediction servicer requested s with
  | (Return resp, s') => (Return (OK, resp), s')
  | (Raise e, s') => (Raise e, s')
  end.

(** The gateway's stub when its channel leads to that server, the
    prediction servicer being in state [s]. *)
Definition prediction_stub (servicer : PredictionServiceServicer) (s : State)
  : string -> outcome GetPredictionResponse :=
  fun requested => stub_call (fst (served_GetPrediction servicer requested s)).

(** *** The data set behind [/wc2026] *)

Section Dataset.

(** The values [json.load] builds other than [None], which it builds
    from [null]; [json.load] itself on the text of a file ([None] when
    it raises); and the dictionary [{"tournament": {}, "odds": []}]. *)
Variable Json : Type.

Inductive pyvalue : Type :=
  | PyNone
  | Value (v : Json).

Variable json_load : string -> option pyvalue.
Variable empty_dataset : Json.

(** [DATA_FILE] on disk: absent, or its text and modification time. *)
Definition DataFile : Type := option (string * R).

(** The globals [_wc2026_cache] and [_wc2026_mtime]. *)
Record Globals : Type := mkGlobals {
  _wc2026_cache : pyvalue;
  _wc2026_mtime : option R
}.

(** [current_mtime == _wc2026_mtime] on two optional numbers. *)
Definition same_mtime (a b : option R) : bool :=
  match a, b with
  | None, None => true
  | Some x, Some y => if Req_dec_T x y then true else false
  | _, _ => false
  end.

Definition st_mtime (file : DataFile) : option R :=
  match file with Some (_, mtime) => Some mtime | None => None end.

(** What a call did to the file. *)
Inductive file_access : Type :=
  | NotRead
  | FoundMissing
  | ReadAndParsed.

(** [_load_wc2026_data(force)]: the value returned ([None] when
    [json.load] raises), the globals afterwards and what happened to
    the file.  The lock makes calls follow one another. *)
Definition _load_wc2026_data (file : DataFile) (force : bool) (g : Globals)
  : option pyvalue * Globals * file_access :=
  let reload :=
    match file with
    | None => (Some (Value empty_dataset),
               mkGlobals (Value empty_dataset) None, FoundMissing)
    | Some (text, mtime) =>
        match json_load text with
        | None => (None, g, ReadAndParsed)
        | Some data => (Some data, mkGlobals data (Some mtime), ReadAndParsed)
        end
    end in
  match force, _wc2026_cache g with
  | false, Value cached =>
      if same_mtime (st_mtime file) (_wc2026_mtime g)
      then (Some (Value cached), g, NotRead)
      else reload
  | _, _ => reload
  end.

(** [get_wc2026()] and the loading step of [reload_wc2026()]. *)
Definition get_wc2026 (file : DataFile) (g : Globals)
  : option pyvalue * Globals * file_access :=
  _load_wc2026_data file false g.

Definition reload_wc2026_data (file : DataFile) (g : Globals)
  : option pyvalue * Globals * file_access :=
  _load_wc2026_data file true g.

(** The globals when the module is imported. *)
Definition initial_globals : Globals := mkGlobals PyNone None.

End Dataset.

Arguments PyNone {Json}.
Arguments Value {Json} v.

(** A stand-in for [json.load] in the examples: a failure on the empty
    text, [None] on the text [null], and otherwise the text itself. *)
Definition text_as_json (text : string) : option (pyvalue string) :=
  match text with
  | EmptyString => None
  | _ => if String.eqb text "null" then Some PyNone else Some (Value text)
  end.

End Gateway.

(** ** scripts/scrape_wc2026.py: getting the HTML *)

Module Scraper.

(** The exceptions of this part of the script: [ComplianceError],
    the [HTTPError] of [raise_for_status], and whatever a request or a
    file read raises by itself. *)
Inductive exn : Type :=
  | ComplianceError
  | HTTPError (status_code : nat)
  | RequestFailed
  | FileUnreadable.

Inductive result (A : Type) : Type :=
  | Done (a : A)
  | Raised (e : exn).
Arguments Done {A} a.
Arguments Raised {A} e.

(** A [requests.Response]: status code and text. *)
Record Response : Type := mkResponse {
  status_code : nat;
  text : string
}.

(** What the script does to the outside. *)
Inductive effect : Type :=
  | HttpGet (url : string)
  | Sleep (seconds : R)
  | ReadText (path : string).

(** The arguments the acquisition reads.  [--html-file] and
    [--source-url] default to [None], [--allow-domain] to the empty
    list. *)
Record Args : Type := mkArgs {
  source_url : option string;
  html_file : option string;
  allow_domains : list string;
  sleep : R
}.

Definition USER_AGENT : string :=
  "AiScoPreResearchBot/1.0 (+https://github.com/oym/AiScoPre)".

Section Outside.

(** The library and the world: [urlparse] (scheme and netloc of a
    URL), [session.get], [RobotFileParser] ([parse] then [can_fetch],
    on the text of robots.txt, an agent and a URL), [Path.read_text],
    and the path of the bundled sample. *)
Variable urlparse : string -> string * string.
Variable session_get : string -> result Response.
Variable can_fetch : string -> string -> string -> bool.
Variable read_text : string -> result string.
Variable SAMPLE_HTML : string.

(** [ensure_domain_allowed(url, allowed_domains)]. *)
Definition ensure_domain_allowed (url : string) (allowed_domains : list string)
  : result unit :=
  match allowed_domains with
  | [] => Raised ComplianceError
  | _ =>
      let netloc := snd (urlparse url) in
      if decide (netloc ∈ allowed_domains)
      then Done tt
      else Raised ComplianceError
  end.

Definition robots_url_of (url : string) : string :=
  fst (urlparse url) +:+ "://" +:+ snd (urlparse url) +:+ "/robots.txt".

(** [check_robots(session, url)], with the effects it had. *)
Definition check_robots (url : string) : result unit * list effect :=
  let robots_url := robots_url_of url in
  match session_get robots_url with
  | Raised e => (Raised e, [HttpGet robots_url])
  | Done resp =>
      if (400 <=? status_code resp)%nat
      then (Raised ComplianceError, [HttpGet robots_url])
      else if can_fetch (text resp) USER_AGENT url
      then (Done tt, [HttpGet robots_url])
      else (Raised ComplianceError, [HttpGet robots_url])
  end.

(** [resp.raise_for_status()]: statuses 400 to 599 raise. *)
Definition raise_for_status (resp : Response) : result unit :=
  if ((400 <=? status_code resp) && (status_code resp <? 600))%nat
  then Raised (HTTPError (status_code resp))
  else Done tt.

(** [fetch_html(session, url, sleep_s)], with the effects it had. *)
Definition fetch_html (url : string) (sleep_s : R)
  : result string * list effect :=
  match check_robots url with
  | (Raised e, effects) => (Raised e, effects)
  | (Done _, effects) =>
      match session_get url with
      | Raised e => (Raised e, effects ++ [HttpGet url])
      | Done resp =>
          match raise_for_status resp with
          | Raised e => (Raised e, effects ++ [HttpGet url])
          | Done _ =>
              if Rlt_dec 0 sleep_s
              then (Done (text resp), effects ++ [HttpGet url; Sleep sleep_s])
              else (Done (text resp), effects ++ [HttpGet url])
          end
      end
  end.

(** robots.txt of the site was fetched with a status below 400 and
    lets [USER_AGENT] fetch [url]. *)
Definition permitted (url : string) : Prop :=
  exists resp,
    session_get (robots_url_of url) = Done resp /\
    (status_code resp < 400)%nat /\
    can_fetch (text resp) USER_AGENT url = true.

(** Lines 176 to 187 of [main]: where [html_text] comes from.  A path
    is always true; a URL is true unless it is the empty string. *)
Definition html_text_of (args : Args) : result string * list effect :=
  match html_file args, source_url args with
  | Some path, _ => (read_text path, [ReadText path])
  | None, Some (String c rest) =>
      let url := String c rest in
      match ensure_domain_allowed url (allow_domains args) with
      | Raised e => (Raised e, [])
      | Done _ => fetch_html url (sleep args)
      end
  | None, _ => (read_text SAMPLE_HTML, [ReadText SAMPLE_HTML])
  end.

End Outside.

(** A site that answers every request with status 200 and lets
    everyone in, for the examples. *)
Definition open_urlparse : string -> string * string :=
  fun _ => ("https", "www.fifa.com").
Definition open_session_get : string -> result Response :=
  fun _ => Done (mkResponse 200 "page").
Definition open_can_fetch : string -> string -> string -> bool :=
  fun _ _ _ => true.
Definition open_read_text : string -> result string :=
  fun _ => Done "sample".

(** [--source-url https://www.fifa.com/wc2026 --allow-domain
    www.fifa.com], with the default sleep of one second. *)
Definition fifa_args : Args :=
  mkArgs (Some "https://www.fifa.com/wc2026") None ["www.fifa.com"] 1.

End Scraper.

(** ** The services wired together

    What the [serve] functions set up: the feature service reaches
    the match and team services, the prediction service reaches the
    match, feature and model services, each through a stub.  The
    repositories are taken as they stand while a request is served. *)

Module Deployment.

Import PredictionService.

Definition match_stub_to (matches : MatchServer.MatchRepository)
  : R -> string -> outcome MatchService.GetMatchResponse :=
  fun _ match_id => stub_call (MatchServer.GetMatch matches match_id).

Definition feature_stub_to (servicer : FeatureService.FeatureServiceServicer)
  : R -> string -> outcome BuildMatchFeaturesResponse :=
  fun _ match_id =>
    stub_call (fst (FeatureService.BuildMatchFeatures servicer match_id)).

Definition prediction_servicer (matches : MatchServer.MatchRepository)
  (teams : TeamService.TeamRepository) : PredictionServiceServicer :=
  mkServicer
    (feature_stub_to (FeatureService.wired matches teams))
    model_stub_of_service
    (match_stub_to matches).

(** The repositories the [serve] functions start with. *)
Definition demo_matches : MatchServer.MatchRepository :=
  MatchServer.after [MatchServer.Add MatchService.demo_match].

Definition demo_deployment : PredictionServiceServicer :=
  prediction_servicer demo_matches TeamService.demo_teams.

(** A state whose cache holds an entry for match 1 that is exactly
    10 seconds old. *)
Definition expired_state : State :=
  mkState (<["1" := (100, 5 / 10, 2 / 10, 3 / 10)]> ∅) 110 [].

End Deployment.

(** * Properties *)

(** ** The exponential against the range of a double *)

Section ExpRange.

Lemma exp_INR (n : nat) : exp (INR n) = exp 1 ^ n.
Proof.
  induction n as [|n IH].
  - simpl. apply exp_0.
  - rewrite S_INR, exp_plus, IH. simpl. ring.
Qed.

Lemma exp_1_ge_2 : 2 <= exp 1.
Proof. pose proof (exp_ineq1_le 1). lra. Qed.

Lemma exp_below_range (x : R) : x <= 640 -> exp x < ModelService.DBL_RANGE.
Proof.
  intros Hx.
  apply Rle_lt_trans with (exp (INR 640)).
  - destruct (Rle_lt_or_eq_dec _ _ Hx) as [Hlt | ->].
    + left. apply exp_increasing. rewrite INR_IZR_INZ. simpl. exact Hlt.
    + right. f_equal. rewrite INR_IZR_INZ. reflexivity.
  - rewrite exp_INR.
    apply Rle_lt_trans with (3 ^ 640).
    + apply pow_incr. split; [left; apply exp_pos | apply exp_le_3].
    + unfold ModelService.DBL_RANGE. rewrite pow_IZR.
      apply IZR_lt. vm_compute. reflexivity.
Qed.

Lemma exp_beyond_range (x : R) : 1024 <= x -> ModelService.DBL_RANGE <= exp x.
Proof.
  intros Hx.
  apply Rle_trans with (exp (INR 1024)).
  - rewrite exp_INR. unfold ModelService.DBL_RANGE.
    change (2 ^ 1024)%Z with (2 ^ Z.of_nat 1024)%Z.
    rewrite <- pow_IZR. apply pow_incr. split; [lra | apply exp_1_ge_2].
  - destruct (Rle_lt_or_eq_dec _ _ Hx) as [Hlt | <-].
    + left. apply exp_increasing. rewrite INR_IZR_INZ. simpl. exact Hlt.
    + right. f_equal. rewrite INR_IZR_INZ. reflexivity.
Qed.

End ExpRange.

(** ** The outcome model *)

Section OutcomeModel.

Import ModelService.

Lemma math_exp_in_range (x : R) : x <= 640 -> math_exp x = Return (exp x).
Proof.
  intros Hx. unfold math_exp.
  destruct (Rlt_dec (exp x) DBL_RANGE) as [_ | Hn]; [reflexivity |].
  exfalso. apply Hn, exp_below_range, Hx.
Qed.

Lemma math_exp_out_of_range (x : R) :
  1024 <= x -> math_exp x = Raise OverflowError.
Proof.
  intros Hx. unfold math_exp.
  destruct (Rlt_dec (exp x) DBL_RANGE) as [Hlt | _]; [| reflexivity].
  pose proof (exp_beyond_range x Hx). lra.
Qed.

Lemma math_exp_positive (x e : R) : math_exp x = Return e -> 0 < e.
Proof.
  unfold math_exp. destruct (Rlt_dec _ _); [| discriminate].
  intros [= <-]. apply exp_pos.
Qed.

Lemma _sigmoid_range (x h : R) : _sigmoid x = Return h -> 0 < h < 1.
Proof.
  unfold _sigmoid.
  destruct (math_exp (- x)) as [e | err] eqn:He; [| discriminate].
  intros [= <-]. apply math_exp_positive in He.
  assert (0 < / (1 + e)) by (apply Rinv_0_lt_compat; lra).
  assert ((1 + e) * / (1 + e) = 1) by (apply Rinv_r; lra).
  unfold Rdiv. nra.
Qed.

Lemma _sigmoid_0 : _sigmoid 0 = Return (1 / 2).
Proof.
  unfold _sigmoid. rewrite math_exp_in_range by lra.
  rewrite Ropp_0, exp_0.
  replace (1 / (1 + 1)) with (1 / 2) by lra. reflexivity.
Qed.

Lemma py_max_ge_l (a b : R) : a <= py_max a b.
Proof. unfold py_max. destruct (Rlt_dec a b); lra. Qed.

Lemma py_max_ge_r (a b : R) : b <= py_max a b.
Proof. unfold py_max. destruct (Rlt_dec a b); lra. Qed.

Lemma py_max_cases (a b : R) : py_max a b = a \/ py_max a b = b.
Proof. unfold py_max. destruct (Rlt_dec a b); auto. Qed.

Lemma raw_draw_range (elo_diff : R) :
  15 / 100 <= raw_draw elo_diff <= 35 / 100.
Proof.
  unfold raw_draw. pose proof (Rabs_pos elo_diff).
  split; [apply py_max_ge_l |].
  destruct (py_max_cases (15 / 100) (35 / 100 - Rabs elo_diff / 1000))
    as [-> | ->]; lra.
Qed.

(** Dividing by a positive total gives three shares of one. *)
Lemma normalize_shares (home draw away : R) :
  0 <= home -> 0 <= draw -> 0 <= away -> 0 < home + draw + away ->
  let r := normalize home draw away in
  0 <= home_win_prob r <= 1 /\ 0 <= draw_prob r <= 1 /\
  0 <= away_win_prob r <= 1 /\
  home_win_prob r + draw_prob r + away_win_prob r = 1.
Proof.
  intros Hh Hd Ha Ht. unfold normalize.
  destruct (Rle_dec (home + draw + away) 0) as [Hle | _]; [lra |].
  set (total := home + draw + away) in *. cbn.
  assert (Hi : 0 < / total) by (apply Rinv_0_lt_compat; exact Ht).
  assert (Hone : total * / total = 1) by (apply Rinv_r; lra).
  unfold Rdiv.
  assert (home * / total + draw * / total + away * / total = 1)
    by (unfold total in *; nra).
  assert (0 <= home * / total) by nra.
  assert (0 <= draw * / total) by nra.
  assert (0 <= away * / total) by nra.
  repeat split; lra.
Qed.

Lemma normalize_degenerate (home draw away : R) :
  home + draw + away <= 0 ->
  normalize home draw away = mkModelResp (1 / 3) (1 / 3) (1 / 3).
Proof.
  intros Ht. unfold normalize.
  destruct (Rle_dec (home + draw + away) 0); [reflexivity | contradiction].
Qed.

(** [PredictMatchOutcome] unfolded on a vector that is long enough. *)
Lemma PredictMatchOutcome_long (fs : list R) :
  (4 <= length fs)%nat ->
  PredictMatchOutcome fs =
    match _sigmoid (base_score (nth 2 fs 0) (nth 3 fs 0)) with
    | Raise err => Raise err
    | Return home =>
        Return (OK, normalize home (raw_draw (nth 2 fs 0))
                      (raw_away home (raw_draw (nth 2 fs 0))))
    end.
Proof.
  intros Hlen. unfold PredictMatchOutcome.
  destruct (Nat.ltb_spec (length fs) 4) as [Hlt | _]; [lia | reflexivity].
Qed.

Lemma PredictMatchOutcome_short (fs : list R) :
  (length fs < 4)%nat ->
  PredictMatchOutcome fs = Return (INVALID_ARGUMENT, empty_response).
Proof.
  intros Hlen. unfold PredictMatchOutcome.
  destruct (Nat.ltb_spec (length fs) 4) as [_ | Hge]; [reflexivity | lia].
Qed.

Lemma base_score_bounds (elo_diff is_knockout : R) :
  - 160000 <= elo_diff -> - 640 <= base_score elo_diff is_knockout.
Proof.
  intros Hd. unfold base_score.
  destruct (Rlt_dec (5 / 10) is_knockout); lra.
Qed.

Lemma base_score_deep (elo_diff is_knockout : R) :
  elo_diff <= - 307200 -> base_score elo_diff is_knockout <= - 1024.
Proof.
  intros Hd. unfold base_score.
  destruct (Rlt_dec (5 / 10) is_knockout); lra.
Qed.

Lemma base_score_level (is_knockout : R) : base_score 0 is_knockout = 0.
Proof. unfold base_score. destruct (Rlt_dec (5 / 10) is_knockout); lra. Qed.

Lemma raw_draw_level : raw_draw 0 = 35 / 100.
Proof.
  unfold raw_draw, py_max. rewrite Rabs_R0.
  destruct (Rlt_dec (15 / 100) (35 / 100 - 0 / 1000)); lra.
Qed.

Lemma raw_away_level : raw_away (1 / 2) (35 / 100) = 15 / 100.
Proof.
  unfold raw_away, py_max.
  destruct (Rlt_dec 0 (1 - 1 / 2 - 35 / 100)); lra.
Qed.

Lemma normalize_unit (home draw away : R) :
  home + draw + away = 1 ->
  normalize home draw away = mkModelResp home draw away.
Proof.
  intros Ht. unfold normalize. rewrite Ht.
  destruct (Rle_dec 1 0); [lra |]. f_equal; lra.
Qed.

(** Before normalisation the three numbers are non-negative and their
    total is at least the floor of the draw probability. *)
Lemma raw_total_positive (x elo_diff home : R) :
  _sigmoid x = Return home ->
  let draw := raw_draw elo_diff in
  let away := raw_away home draw in
  0 <= home /\ 0 <= draw /\ 0 <= away /\ 0 < home + draw + away.
Proof.
  intros Hs draw away.
  pose proof (_sigmoid_range _ _ Hs) as Hh.
  pose proof (raw_draw_range elo_diff) as Hd. fold draw in Hd.
  assert (Ha : 0 <= away) by apply py_max_ge_l.
  repeat split; lra.
Qed.

Lemma PredictMatchOutcome_at_level (fs : list R) :
  (4 <= length fs)%nat -> nth 2 fs 0 = 0 ->
  PredictMatchOutcome fs =
    Return (OK, mkModelResp (1 / 2) (35 / 100) (15 / 100)).
Proof.
  intros Hlen Hdiff. rewrite (PredictMatchOutcome_long fs Hlen), Hdiff.
  rewrite base_score_level, _sigmoid_0, raw_draw_level, raw_away_level.
  rewrite normalize_unit by lra. reflexivity.
Qed.

(** Status INVALID_ARGUMENT is set exactly on vectors of fewer than
    four features. *)
Lemma PredictMatchOutcome_invalid_argument_iff (fs : list R) :
  (exists r, PredictMatchOutcome fs = Return (INVALID_ARGUMENT, r)) <->
  (length fs < 4)%nat.
Proof.
  split.
  - intros [r Hr]. destruct (Nat.lt_ge_cases (length fs) 4) as [Hlt | Hge];
      [exact Hlt | exfalso].
    rewrite (PredictMatchOutcome_long fs Hge) in Hr.
    destruct (_sigmoid _); discriminate.
  - intros Hlt. eexists. apply PredictMatchOutcome_short, Hlt.
Qed.

End OutcomeModel.

(** ** The outcome model on floats that may be NaN *)

Section OutcomeModelNaN.

Import ModelServiceNaN.

Lemma PredictMatchOutcome_short_vector (fs : list pyfloat) :
  (length fs < 4)%nat ->
  PredictMatchOutcome fs = Return (INVALID_ARGUMENT, empty_response).
Proof.
  intros Hlen. unfold PredictMatchOutcome.
  destruct (Nat.ltb_spec (length fs) 4) as [_ | Hge]; [reflexivity | lia].
Qed.

(** A rating difference that is NaN reaches the three fields: the
    sigmoid and the total are NaN, [max] keeps its first argument, the
    test [total <= 0] fails and every quotient by the total is NaN. *)
Lemma PredictMatchOutcome_nan_gap (fs : list pyfloat) :
  (4 <= length fs)%nat -> nth 2 fs NaN = NaN ->
  PredictMatchOutcome fs = Return (OK, mkResponse NaN NaN NaN).
Proof.
  intros Hlen Hgap. unfold PredictMatchOutcome.
  destruct (Nat.ltb_spec (length fs) 4) as [Hlt | _]; [lia |].
  rewrite Hgap. cbn.
  destruct (gt (nth 3 fs NaN) (Num (5 / 10))); reflexivity.
Qed.

Lemma py_max_numbers (a b : R) :
  py_max (Num a) (Num b) = Num (ModelService.py_max a b).
Proof.
  unfold py_max, ModelService.py_max, gt.
  destruct (Rlt_dec a b); reflexivity.
Qed.

(** With a number as rating difference the method computes what it
    computes on real numbers, whatever the other features are. *)
Lemma PredictMatchOutcome_number_gap (fs : list pyfloat) (d : R) :
  (4 <= length fs)%nat -> nth 2 fs NaN = Num d ->
  PredictMatchOutcome fs =
    match ModelService.PredictMatchOutcome
            [0; 0; d; flag_read (nth 3 fs NaN)] with
    | Return (code, r) => Return (code, of_numbers r)
    | Raise err => Raise err
    end.
Proof.
  intros Hlen Hgap. unfold PredictMatchOutcome.
  destruct (Nat.ltb_spec (length fs) 4) as [Hlt | _]; [lia |].
  rewrite Hgap.
  rewrite PredictMatchOutcome_long by (simpl; lia).
  cbn [nth].
  assert (Hbase :
    (if gt (nth 3 fs NaN) (Num (5 / 10))
     then mul (div (Num d) (Num 300)) (Num (12 / 10))
     else div (Num d) (Num 300)) =
    Num (ModelService.base_score d (flag_read (nth 3 fs NaN)))).
  { unfold ModelService.base_score.
    destruct (nth 3 fs NaN) as [k |]; cbn.
    - destruct (Rlt_dec (5 / 10) k); reflexivity.
    - destruct (Rlt_dec (5 / 10) 0) as [Hlt | _]; [lra | reflexivity]. }
  cbv zeta. rewrite Hbase.
  unfold _sigmoid, ModelService._sigmoid. cbn [neg math_exp].
  destruct (ModelService.math_exp _) as [e | err]; [| reflexivity].
  unfold py_abs, sub, div, add, arith.
  rewrite py_max_numbers. fold (ModelService.raw_draw d).
  rewrite py_max_numbers.
  fold (ModelService.raw_away (1 / (1 + e)) (ModelService.raw_draw d)).
  unfold ModelService.normalize, le, of_numbers.
  destruct (Rle_dec _ 0); reflexivity.
Qed.

Lemma PredictMatchOutcome_on_numbers (fs : list R) :
  PredictMatchOutcome (map Num fs) =
    match ModelService.PredictMatchOutcome fs with
    | Return (code, r) => Return (code, of_numbers r)
    | Raise err => Raise err
    end.
Proof.
  destruct (Nat.lt_ge_cases (length fs) 4) as [Hlt | Hlen].
  - rewrite PredictMatchOutcome_short_vector by (rewrite length_map; exact Hlt).
    rewrite PredictMatchOutcome_short by exact Hlt. reflexivity.
  - destruct fs as [| a [| b [| c [| k t]]]]; try (simpl in Hlen; lia).
    rewrite (PredictMatchOutcome_number_gap _ c)
      by (simpl; lia || reflexivity).
    reflexivity.
Qed.

End OutcomeModelNaN.

(** ** The prediction servicer *)

(** Runs [_compute_prediction] up to the next stub whose answer is not
    known yet. *)
Ltac run_computation :=
  unfold PredictionService._compute_prediction, PredictionService.bind,
    PredictionService.call, PredictionService.emit,
    PredictionService.time_time, PredictionService.cache_set,
    PredictionService.ret;
  cbn.

Section ComputePrediction.

Import MatchService PredictionService.

Variable self : PredictionServiceServicer.

Lemma _compute_prediction_ok (match_id : string) (s : State) mr fr pr :
  _match_stub self (clock s) match_id = Return mr ->
  _feature_stub self (clock s) match_id = Return fr ->
  _model_stub self (clock s) (features fr) = Return pr ->
  _compute_prediction self match_id s =
    (Return (response_of match_id mr pr),
     computed_state match_id (features fr) (entry_of (clock s) pr) s).
Proof.
  intros Hm Hf Hp. run_computation.
  rewrite Hm. cbn. rewrite Hf. cbn. rewrite Hp. cbn.
  unfold computed_state, response_of, entry_of.
  rewrite <- !app_assoc. reflexivity.
Qed.

Lemma _compute_prediction_match_fails (match_id : string) (s : State) e :
  _match_stub self (clock s) match_id = Raise e ->
  _compute_prediction self match_id s =
    (Raise e,
     mkState (cache_data s) (clock s) (trace s ++ [CallGetMatch match_id])).
Proof.
  intros Hm. run_computation. rewrite Hm. reflexivity.
Qed.

Lemma _compute_prediction_feature_fails (match_id : string) (s : State)
  mr e :
  _match_stub self (clock s) match_id = Return mr ->
  _feature_stub self (clock s) match_id = Raise e ->
  _compute_prediction self match_id s =
    (Raise e,
     mkState (cache_data s) (clock s)
       (trace s ++ [CallGetMatch match_id; CallBuildMatchFeatures match_id])).
Proof.
  intros Hm Hf. run_computation.
  rewrite Hm. cbn. rewrite Hf. cbn. rewrite <- !app_assoc. reflexivity.
Qed.

Lemma _compute_prediction_model_fails (match_id : string) (s : State)
  mr fr e :
  _match_stub self (clock s) match_id = Return mr ->
  _feature_stub self (clock s) match_id = Return fr ->
  _model_stub self (clock s) (features fr) = Raise e ->
  _compute_prediction self match_id s =
    (Raise e,
     mkState (cache_data s) (clock s)
       (trace s ++ [CallGetMatch match_id; CallBuildMatchFeatures match_id;
                    CallPredictMatchOutcome (features fr)])).
Proof.
  intros Hm Hf Hp. run_computation.
  rewrite Hm. cbn. rewrite Hf. cbn. rewrite Hp. cbn.
  rewrite <- !app_assoc. reflexivity.
Qed.

Lemma _compute_prediction_cases (match_id : string) (s : State) :
  computation self match_id s (fst (_compute_prediction self match_id s))
    (snd (_compute_prediction self match_id s)).
Proof.
  destruct (_match_stub self (clock s) match_id) as [mr | e] eqn:Hm.
  - destruct (_feature_stub self (clock s) match_id) as [fr | e] eqn:Hf.
    + destruct (_model_stub self (clock s) (features fr)) as [pr | e] eqn:Hp.
      * rewrite (_compute_prediction_ok _ _ _ _ _ Hm Hf Hp). cbn.
        now constructor.
      * rewrite (_compute_prediction_model_fails _ _ _ _ _ Hm Hf Hp). cbn.
        constructor; [unfold first_failure; now rewrite Hm, Hf, Hp |].
        repeat constructor.
    + rewrite (_compute_prediction_feature_fails _ _ _ _ Hm Hf). cbn.
      constructor; [unfold first_failure; now rewrite Hm, Hf |].
      repeat constructor.
  - rewrite (_compute_prediction_match_fails _ _ _ Hm). cbn.
    constructor; [unfold first_failure; now rewrite Hm |].
    repeat constructor.
Qed.


End ComputePrediction.

(** Brings in, as [Hcase], the way the computation at [s] ended, from
    the equation [Heq] for its result. *)
Ltac computation_ended self match_id s Heq Hcase :=
  pose proof (_compute_prediction_cases self match_id s) as Hcase;
  rewrite Heq in Hcase; cbn [fst snd] in Hcase.

Section GetPredictionPaths.

Import MatchService PredictionService.

Variable self : PredictionServiceServicer.

Lemma GetPrediction_hit (match_id : string) (s : State) ts home draw away :
  cache_data s !! match_id = Some (ts, home, draw, away) ->
  clock s - ts < 10 ->
  GetPrediction self match_id s =
    (hit_answer self match_id (clock s) home draw away,
     mkState (cache_data s) (clock s)
       (trace s ++ [CacheGet match_id; CallGetMatch match_id])).
Proof.
  intros Hc Hfresh.
  unfold GetPrediction, bind, cache_get, time_time, call, emit, ret, hit_answer.
  cbv beta iota. rewrite Hc. cbn [clock cache_data trace].
  destruct (Rlt_dec (clock s - ts) 10) as [_ | Hn]; [| contradiction].
  cbn [clock cache_data trace]. rewrite <- app_assoc. cbn [app].
  destruct (_match_stub self (clock s) match_id); reflexivity.
Qed.

Lemma GetPrediction_miss (match_id : string) (s : State) :
  stale match_id s ->
  GetPrediction self match_id s =
    _compute_prediction self match_id (looked_up match_id s).
Proof.
  intros Hstale. unfold GetPrediction, bind, cache_get, time_time, looked_up.
  cbv beta iota.
  destruct (cache_data s !! match_id) as [[[[ts home] draw] away] |] eqn:Hc;
    [| reflexivity].
  cbn [clock emit].
  destruct (Rlt_dec (clock s - ts) 10) as [Hlt | _]; [| reflexivity].
  exfalso. exact (Hstale _ _ _ _ Hc Hlt).
Qed.

Lemma fresh_or_stale (match_id : string) (s : State) :
  (exists ts home draw away,
     cache_data s !! match_id = Some (ts, home, draw, away) /\
     clock s - ts < 10) \/
  stale match_id s.
Proof.
  destruct (cache_data s !! match_id) as [[[[ts home] draw] away] |] eqn:Hc.
  - destruct (Rlt_dec (clock s - ts) 10) as [Hlt | Hn].
    + left. exists ts, home, draw, away. auto.
    + right. intros ts' h' d' a' Heq. rewrite Hc in Heq.
      injection Heq as <- <- <- <-. exact Hn.
  - right. intros ts h d a Heq. rewrite Hc in Heq. discriminate.
Qed.

(** After a call that returned, the cache holds the returned
    probabilities, stamped no later than the clock. *)
Lemma GetPrediction_cached (match_id : string) (s s' : State) resp :
  GetPrediction self match_id s = (Return resp, s') ->
  exists ts,
    cache_data s' !! match_id =
      Some (ts, home_win_prob resp, draw_prob resp, away_win_prob resp) /\
    clock s' - ts < 10.
Proof.
  destruct (fresh_or_stale match_id s)
    as [(ts & h & d & a & Hc & Hfresh) | Hstale].
  - rewrite (GetPrediction_hit _ _ _ _ _ _ Hc Hfresh). unfold hit_answer.
    destruct (_match_stub self (clock s) match_id); [| discriminate].
    intros [= <- <-]. cbn. exists ts. auto.
  - rewrite (GetPrediction_miss _ _ Hstale).
    intros Heq.
    computation_ended self match_id (looked_up match_id s) Heq Hcase.
    inversion Hcase as [mr fr pr Hm Hf Hp Hr Hs |]; subst.
    exists (clock s). cbn. rewrite lookup_insert_eq. split; [reflexivity | lra].
Qed.

(** A call that raised left the cache as it was. *)
Lemma GetPrediction_failure_keeps_cache (match_id : string) (s s' : State) e :
  GetPrediction self match_id s = (Raise e, s') ->
  cache_data s' = cache_data s /\
  exists evs, trace s' = trace s ++ evs /\ Forall not_a_write evs.
Proof.
  destruct (fresh_or_stale match_id s)
    as [(ts & h & d & a & Hc & Hfresh) | Hstale].
  - rewrite (GetPrediction_hit _ _ _ _ _ _ Hc Hfresh).
    intros [= _ <-]. cbn. split; [reflexivity |].
    eexists. split; [reflexivity | repeat constructor].
  - rewrite (GetPrediction_miss _ _ Hstale).
    intros Heq.
    computation_ended self match_id (looked_up match_id s) Heq Hcase.
    inversion Hcase as [| e' evs Hfail Hevs]; subst. cbn.
    split; [reflexivity |].
    exists (CacheGet match_id :: evs). rewrite <- app_assoc.
    split; [reflexivity | constructor; [exact I | exact Hevs]].
Qed.

End GetPredictionPaths.

Section StreamPulls.

Import MatchService PredictionService.

Variable self : PredictionServiceServicer.

Lemma _compute_prediction_failure (match_id : string) (s : State) (e : exn) :
  first_failure self match_id (clock s) = Some e ->
  exists evs,
    _compute_prediction self match_id s =
      (Raise e, mkState (cache_data s) (clock s) (trace s ++ evs)) /\
    Forall not_a_write evs.
Proof.
  intros Hfail.
  pose proof (_compute_prediction_cases self match_id s) as Hcase.
  destruct (_compute_prediction self match_id s) as [out s1].
  cbn [fst snd] in Hcase.
  inversion Hcase as [mr fr pr Hm Hf Hp | e' evs Hfail' Hevs]; subst.
  - unfold first_failure in Hfail. rewrite Hm, Hf, Hp in Hfail. discriminate.
  - rewrite Hfail in Hfail'. injection Hfail' as <-. eauto.
Qed.


Lemma StreamPrediction_next_live (match_id : string) (g : generator)
  (s : State) :
  g <> Finished ->
  StreamPrediction_next self match_id g s =
    loop_iteration self match_id (resume g s).
Proof. destruct g; [reflexivity | reflexivity | congruence]. Qed.

Lemma loop_iteration_yields (match_id : string) (s s' : State) resp g' :
  loop_iteration self match_id s = (Yield resp, g', s') ->
  _compute_prediction self match_id s = (Return resp, s') /\ g' = Suspended.
Proof.
  unfold loop_iteration.
  destruct (_compute_prediction self match_id s) as [[r | [code |]] s1];
    intros [= <- <- <-] || discriminate. auto.
Qed.

Lemma StreamPrediction_take_finished (n : nat) (match_id : string)
  (s : State) :
  StreamPrediction_take self n match_id Finished s = ([], Finished, s).
Proof. destruct n; reflexivity. Qed.


(** A match the match service never knows is never cached. *)
Lemma unknown_never_cached (match_id : string) (s : State) :
  (forall t mr, _match_stub self t match_id <> Return mr) ->
  reachable self s -> cache_data s !! match_id = None.
Proof.
  intros Hunknown.
  assert (Hcomp : forall other s0,
            cache_data s0 !! match_id = None ->
            cache_data (snd (_compute_prediction self other s0)) !! match_id
              = None).
  { intros other s0 Hnone.
    pose proof (_compute_prediction_cases self other s0) as Hcase.
    destruct (_compute_prediction self other s0) as [out s1].
    cbn [fst snd] in *.
    inversion Hcase as [mr fr pr Hm Hf Hp | e evs _ _]; subst;
      [| exact Hnone].
    cbn. rewrite lookup_insert_ne; [exact Hnone |].
    intros ->. exact (Hunknown _ _ Hm). }
  induction 1 as [t | s dt _ IH _ | s other _ IH | s other g _ IH].
  - apply lookup_empty.
  - exact IH.
  - destruct (fresh_or_stale other s)
      as [(ts & h & d & a & Hc & Hfresh) | Hstale].
    + rewrite (GetPrediction_hit _ _ _ _ _ _ _ Hc Hfresh). exact IH.
    + rewrite (GetPrediction_miss _ _ _ Hstale). apply Hcomp. exact IH.
  - assert (Hloop : forall s0, cache_data s0 !! match_id = None ->
              cache_data (snd (loop_iteration self other s0)) !! match_id
                = None).
    { intros s0 Hnone. specialize (Hcomp other s0 Hnone).
      unfold loop_iteration.
      destruct (_compute_prediction self other s0) as [[r | [c |]] s1];
        exact Hcomp. }
    destruct g; cbn [StreamPrediction_next]; [| | exact IH].
    + apply Hloop, IH.
    + apply Hloop. exact IH.
Qed.

End StreamPulls.

(** ** The freshness test *)

Section Freshness.

Import MatchService PredictionService.



(** [GetPrediction] is the freshness test at 10 seconds, followed by
    the hit path or by the full computation. *)
Lemma GetPrediction_get_if_fresh (self : PredictionServiceServicer)
  (match_id : string) (s : State) :
  GetPrediction self match_id s =
    (fresh <- get_if_fresh 10 match_id ;;
     match fresh with
     | Some (home, draw, away) =>
         match_resp <- call (CallGetMatch match_id)
                         (fun t => _match_stub self t match_id) ;;
         ret (mkGetPredictionResponse match_id (match_ match_resp)
                home draw away)
     | None => _compute_prediction self match_id
     end) s.
Proof.
  unfold GetPrediction, get_if_fresh, bind, cache_get, time_time, ret.
  cbv beta iota.
  destruct (cache_data s !! match_id) as [[[[ts home] draw] away] |];
    [| reflexivity].
  cbn [clock emit]. destruct (Rlt_dec (clock s - ts) 10); reflexivity.
Qed.

End Freshness.

(** ** The demo deployment *)

Section Demo.

Import MatchService PredictionService.

(** The match stub raises NOT_FOUND exactly on the ids the repository
    does not hold. *)
Lemma match_stub_of_unknown (repo : MatchRepository) (t : R)
  (match_id : string) :
  match_stub_of repo t match_id = Raise (RpcError NOT_FOUND) <->
  get_match repo match_id = None.
Proof.
  unfold match_stub_of, GetMatch.
  destruct (get_match repo match_id) as [m |]; cbn; split;
    congruence || discriminate.
Qed.

Lemma demo_match_known (t : R) :
  _match_stub demo_servicer t "1" = Return (mkGetMatchResponse demo_match).
Proof.
  cbn. unfold match_stub_of, GetMatch, get_match, demo_repo, add_match.
  cbn [id demo_match]. rewrite lookup_insert_eq. reflexivity.
Qed.

Lemma demo_match_unknown (t : R) :
  _match_stub demo_servicer t "X" = Raise (RpcError NOT_FOUND).
Proof.
  cbn [_match_stub demo_servicer]. apply match_stub_of_unknown.
  unfold get_match, demo_repo, add_match. cbn [id demo_match].
  rewrite lookup_insert_ne by discriminate. apply lookup_empty.
Qed.

Lemma demo_model_answer (t : R) :
  _model_stub demo_servicer t [1500; 1500; 0; 1] =
    Return (ModelService.mkModelResp (1 / 2) (35 / 100) (15 / 100)).
Proof.
  cbn. unfold model_stub_of_service.
  rewrite PredictMatchOutcome_at_level;
    [reflexivity | simpl; lia | reflexivity].
Qed.


Lemma demo_unknown_fails (t : R) :
  first_failure demo_servicer "X" t = Some (RpcError NOT_FOUND).
Proof. unfold first_failure. rewrite demo_match_unknown. reflexivity. Qed.

Lemma demo_first_call :
  GetPrediction demo_servicer "1" initial_state =
    (Return (mkGetPredictionResponse "1" demo_match
               (1 / 2) (35 / 100) (15 / 100)),
     mkState (<["1" := (0, 1 / 2, 35 / 100, 15 / 100)]> ∅) 0
       [CacheGet "1"; CallGetMatch "1"; CallBuildMatchFeatures "1";
        CallPredictMatchOutcome [1500; 1500; 0; 1];
        CacheSet "1" (0, 1 / 2, 35 / 100, 15 / 100)]).
Proof.
  rewrite GetPrediction_miss.
  - rewrite (_compute_prediction_ok demo_servicer "1" _
               (mkGetMatchResponse demo_match)
               (mkBuildMatchFeaturesResponse [1500; 1500; 0; 1])
               (ModelService.mkModelResp (1 / 2) (35 / 100) (15 / 100))).
    + reflexivity.
    + apply demo_match_known.
    + reflexivity.
    + apply demo_model_answer.
  - intros ts h d a Hc. cbn in Hc. rewrite lookup_empty in Hc. discriminate.
Qed.

(** A pull on a suspended stream, with a fresh entry in the cache:
    the entry is not used, it is replaced. *)
Lemma demo_warm_pull :
  StreamPrediction_next demo_servicer "1" Suspended warm_state =
    (Yield (mkGetPredictionResponse "1" demo_match
              (1 / 2) (35 / 100) (15 / 100)),
     Suspended,
     mkState
       (<["1" := (105 + 5, 1 / 2, 35 / 100, 15 / 100)]>
          (cache_data warm_state))
       (105 + 5)
       [Sleep 5; CallGetMatch "1"; CallBuildMatchFeatures "1";
        CallPredictMatchOutcome [1500; 1500; 0; 1];
        CacheSet "1" (105 + 5, 1 / 2, 35 / 100, 15 / 100)]).
Proof.
  cbn [StreamPrediction_next time_sleep]. unfold loop_iteration.
  rewrite (_compute_prediction_ok demo_servicer "1" _
             (mkGetMatchResponse demo_match)
             (mkBuildMatchFeaturesResponse [1500; 1500; 0; 1])
             (ModelService.mkModelResp (1 / 2) (35 / 100) (15 / 100))).
  - reflexivity.
  - apply demo_match_known.
  - reflexivity.
  - apply demo_model_answer.
Qed.

End Demo.

(** * The claims *)

(** ** The outcome model *)

Section OutcomeModelClaims.

Import ModelService.

(** On four or more features that are all numbers, every returned
    triple has its three components in [0,1] and they add up to one
    (so to one within 1e-6); a triple is returned whenever [elo_diff]
    is at least -160000; and the normalisation step answers one third
    each as soon as the total it is given is zero or negative. *)
Lemma PredictMatchOutcome_probabilities (fs : list R) :
  (4 <= length fs)%nat ->
  (forall code r, PredictMatchOutcome fs = Return (code, r) ->
     code = OK /\
     0 <= home_win_prob r <= 1 /\ 0 <= draw_prob r <= 1 /\
     0 <= away_win_prob r <= 1 /\
     home_win_prob r + draw_prob r + away_win_prob r = 1 /\
     Rabs (home_win_prob r + draw_prob r + away_win_prob r - 1)
       <= 1 / 1000000) /\
  (- 160000 <= nth 2 fs 0 ->
     exists r, PredictMatchOutcome fs = Return (OK, r)) /\
  (forall home draw away, home + draw + away <= 0 ->
     normalize home draw away = mkModelResp (1 / 3) (1 / 3) (1 / 3)).
Proof.
  intros Hlen. rewrite (PredictMatchOutcome_long fs Hlen).
  split; [| split].
  - intros code r.
    destruct (_sigmoid _) as [home | err] eqn:Hs; [| discriminate].
    intros [= <- <-].
    destruct (raw_total_positive _ (nth 2 fs 0) _ Hs) as (Hh & Hd & Ha & Ht).
    destruct (normalize_shares _ _ _ Hh Hd Ha Ht) as (H1 & H2 & H3 & H4).
    repeat split; try tauto.
    rewrite H4. replace (1 - 1) with 0 by lra. rewrite Rabs_R0. lra.
  - intros Hd. unfold _sigmoid.
    rewrite math_exp_in_range.
    + eexists. reflexivity.
    + pose proof (base_score_bounds (nth 2 fs 0) (nth 3 fs 0) Hd). lra.
  - exact normalize_degenerate.
Qed.

Lemma PredictMatchOutcome_probabilities_witness :
  exists r, PredictMatchOutcome final_features = Return (OK, r) /\
    0 <= home_win_prob r <= 1 /\
    home_win_prob r + draw_prob r + away_win_prob r = 1 /\
    normalize 0 0 0 = mkModelResp (1 / 3) (1 / 3) (1 / 3).
Proof.
  assert (Hlen : (4 <= length final_features)%nat) by (simpl; lia).
  destruct (PredictMatchOutcome_probabilities _ Hlen) as (Hp & Ht & Hd).
  destruct Ht as [r Hr]; [simpl; lra |].
  exists r. split; [exact Hr |].
  destruct (Hp OK r Hr) as (_ & Hh & _ & _ & Hsum & _).
  split; [exact Hh | split; [exact Hsum |]].
  apply Hd. lra.
Defined.

(** C5, as the code has it: at [elo_diff = 0] and knockout indicator 0
    the draw probability is exactly the ceiling 0.35, the home-win
    probability is 0.5 and the away-win probability is 0.15. *)
Theorem PredictMatchOutcome_level_match (fs : list R) :
  (4 <= length fs)%nat -> nth 2 fs 0 = 0 -> nth 3 fs 0 = 0 ->
  PredictMatchOutcome fs =
    Return (OK, mkModelResp (1 / 2) (35 / 100) (15 / 100)).
Proof.
  intros Hlen Hdiff _. apply PredictMatchOutcome_at_level; assumption.
Qed.

Lemma PredictMatchOutcome_level_match_witness :
  PredictMatchOutcome level_features =
    Return (OK, mkModelResp (1 / 2) (35 / 100) (15 / 100)).
Proof.
  apply PredictMatchOutcome_level_match;
    [simpl; lia | reflexivity | reflexivity].
Defined.

(** C5, as the spec has it, fails: with every one of the first three
    features equal to 0 and knockout indicator 0, the home-win and
    away-win probabilities are 0.35 apart. *)
Lemma PredictMatchOutcome_level_match_not_even :
  exists r, PredictMatchOutcome zero_features = Return (OK, r) /\
    nth 0 zero_features 0 = nth 1 zero_features 0 /\
    nth 1 zero_features 0 = nth 2 zero_features 0 /\
    nth 3 zero_features 0 = 0 /\
    draw_prob r = 35 / 100 /\
    home_win_prob r - away_win_prob r = 35 / 100 /\
    ~ Rabs (home_win_prob r - away_win_prob r) <= 1 / 10.
Proof.
  exists (mkModelResp (1 / 2) (35 / 100) (15 / 100)).
  split; [| cbn; repeat split; try lra].
  - apply PredictMatchOutcome_at_level; [simpl; lia | reflexivity].
  - replace (1 / 2 - 15 / 100) with (35 / 100) by lra.
    rewrite Rabs_pos_eq by lra. lra.
Qed.

(** C8, at a failing input: four features with [elo_diff = -600000]
    make [math.exp] overflow, so the servicer raises instead of
    returning a triple, and the caller sees status UNKNOWN. *)
Theorem PredictMatchOutcome_overflow :
  PredictMatchOutcome outclassed_features = Raise OverflowError /\
  stub_call (PredictMatchOutcome outclassed_features)
    = Raise (RpcError UNKNOWN).
Proof.
  assert (H : PredictMatchOutcome outclassed_features = Raise OverflowError).
  { rewrite PredictMatchOutcome_long by (simpl; lia).
    cbn [nth outclassed_features].
    unfold _sigmoid. rewrite math_exp_out_of_range; [reflexivity |].
    pose proof (base_score_deep (- 600000) 0). lra. }
  rewrite H. split; reflexivity.
Qed.

(** C10: two feature vectors with the same first four elements get the
    same answer, whatever follows. *)
Theorem PredictMatchOutcome_first_four (fs1 fs2 : list R) :
  firstn 4 fs1 = firstn 4 fs2 ->
  PredictMatchOutcome fs1 = PredictMatchOutcome fs2.
Proof.
  intros Heq.
  destruct fs1 as [|a1 [|b1 [|c1 [|d1 t1]]]];
    destruct fs2 as [|a2 [|b2 [|c2 [|d2 t2]]]];
    try discriminate Heq; try reflexivity.
  all: injection Heq as -> -> ->; try subst; try reflexivity.
Qed.

Lemma PredictMatchOutcome_first_four_witness :
  PredictMatchOutcome final_features =
  PredictMatchOutcome (final_features ++ [7; 8]).
Proof. apply PredictMatchOutcome_first_four. reflexivity. Defined.

End OutcomeModelClaims.

Section OutcomeModelNaNClaims.

Import ModelServiceNaN.

(** C3, at a failing input: four features whose rating difference is
    NaN get status OK and three NaN, and the caller receives them as a
    response.  No component is a number of [0,1], nothing adds up to
    one, and the fallback to one third each is not taken: [total <= 0]
    is false on a total that is NaN. *)
Theorem PredictMatchOutcome_nan :
  (4 <= length nan_features)%nat /\
  PredictMatchOutcome nan_features = Return (OK, mkResponse NaN NaN NaN) /\
  stub_call (PredictMatchOutcome nan_features)
    = Return (mkResponse NaN NaN NaN).
Proof.
  assert (H : PredictMatchOutcome nan_features
              = Return (OK, mkResponse NaN NaN NaN)).
  { unfold PredictMatchOutcome.
    change (length nan_features <? 4)%nat with false.
    cbn [nth nan_features].
    assert (Hflag : gt (Num 0) (Num (5 / 10)) = false).
    { unfold gt. destruct (Rlt_dec (5 / 10) 0) as [Hlt | _]; [lra | easy]. }
    cbv zeta. rewrite Hflag. reflexivity. }
  split; [simpl; lia |]. rewrite H. split; reflexivity.
Qed.

End OutcomeModelNaNClaims.

(** ** The orchestrator and its cache *)

Section OrchestratorClaims.

Import MatchService PredictionService.

(** C1: with a cache entry younger than 10 seconds, [GetPrediction]
    looks the entry up, asks the match service once and nothing else,
    leaves the cache as it is, and answers the metadata just fetched
    with the cached probabilities.  Hence, after any call that
    returned, a second call made while the entry is younger than 10
    seconds returns the same three probabilities, next to metadata
    fetched by that second call. *)
Theorem GetPrediction_fresh_entry :
  (forall (self : PredictionServiceServicer) (match_id : string)
     (s : State) (ts home draw away : R),
     cache_data s !! match_id = Some (ts, home, draw, away) ->
     clock s - ts < 10 ->
     GetPrediction self match_id s =
       (hit_answer self match_id (clock s) home draw away,
        mkState (cache_data s) (clock s)
          (trace s ++ [CacheGet match_id; CallGetMatch match_id]))) /\
  (forall (first second : PredictionServiceServicer) (match_id : string)
     (s0 s1 : State) (resp : GetPredictionResponse) (dt : R),
     GetPrediction first match_id s0 = (Return resp, s1) ->
     (forall ts home draw away,
        cache_data s1 !! match_id = Some (ts, home, draw, away) ->
        clock s1 + dt - ts < 10) ->
     GetPrediction second match_id (later dt s1) =
       (hit_answer second match_id (clock s1 + dt)
          (home_win_prob resp) (draw_prob resp) (away_win_prob resp),
        mkState (cache_data s1) (clock s1 + dt)
          (trace s1 ++ [CacheGet match_id; CallGetMatch match_id]))).
Proof.
  split.
  - intros self match_id s ts home draw away Hc Hfresh.
    exact (GetPrediction_hit self match_id s ts home draw away Hc Hfresh).
  - intros first second match_id s0 s1 resp dt Hcall Hwindow.
    destruct (GetPrediction_cached _ _ _ _ _ Hcall) as (ts & Hc & _).
    exact (GetPrediction_hit second match_id (later dt s1) ts _ _ _
             Hc (Hwindow _ _ _ _ Hc)).
Qed.

Lemma GetPrediction_fresh_entry_witness :
  GetPrediction demo_servicer "1" warm_state =
    (Return (mkGetPredictionResponse "1" demo_match
               (5 / 10) (2 / 10) (3 / 10)),
     mkState (cache_data warm_state) 105 [CacheGet "1"; CallGetMatch "1"]) /\
  fst (GetPrediction demo_servicer "1"
         (later 3 (snd (GetPrediction demo_servicer "1" initial_state)))) =
    Return (mkGetPredictionResponse "1" demo_match
              (1 / 2) (35 / 100) (15 / 100)).
Proof.
  split.
  - rewrite (proj1 GetPrediction_fresh_entry demo_servicer "1" warm_state
               100 (5 / 10) (2 / 10) (3 / 10)).
    + unfold hit_answer. rewrite demo_match_known. reflexivity.
    + apply lookup_insert_eq.
    + cbn. lra.
  - rewrite demo_first_call. cbn [snd].
    rewrite (proj2 GetPrediction_fresh_entry demo_servicer demo_servicer "1"
               initial_state _ _ 3 demo_first_call).
    + cbn [fst]. unfold hit_answer. rewrite demo_match_known. reflexivity.
    + intros ts h d a Hc. cbn in Hc. rewrite lookup_insert_eq in Hc.
      injection Hc as <- _ _ _. cbn. lra.
Defined.

(** C2: when the match service answers NOT_FOUND for an id,
    [GetPrediction] raises that NOT_FOUND error, having looked the
    cache up and asked the match service and nothing else; the cache
    is what it was, so an id without an entry still has none; and an
    id the match service never knows has no entry in any state the
    servicer can reach, before or after the call. *)
Theorem GetPrediction_not_found (self : PredictionServiceServicer)
  (match_id : string) (s : State) :
  _match_stub self (clock s) match_id = Raise (RpcError NOT_FOUND) ->
  GetPrediction self match_id s =
    (Raise (RpcError NOT_FOUND),
     mkState (cache_data s) (clock s)
       (trace s ++ [CacheGet match_id; CallGetMatch match_id])) /\
  (cache_data s !! match_id = None ->
   cache_data (snd (GetPrediction self match_id s)) !! match_id = None) /\
  ((forall t mr, _match_stub self t match_id <> Return mr) ->
   reachable self s ->
   cache_data (snd (GetPrediction self match_id s)) !! match_id = None).
Proof.
  intros Hm.
  assert (Hcall : GetPrediction self match_id s =
    (Raise (RpcError NOT_FOUND),
     mkState (cache_data s) (clock s)
       (trace s ++ [CacheGet match_id; CallGetMatch match_id]))).
  { destruct (fresh_or_stale match_id s)
      as [(ts & h & d & a & Hc & Hfresh) | Hstale].
    - rewrite (GetPrediction_hit _ _ _ _ _ _ _ Hc Hfresh).
      unfold hit_answer. rewrite Hm. reflexivity.
    - rewrite (GetPrediction_miss _ _ _ Hstale).
      rewrite (_compute_prediction_match_fails self match_id
                 (looked_up match_id s) _ Hm).
      unfold looked_up, emit. cbn. rewrite <- app_assoc. reflexivity. }
  rewrite Hcall. split; [reflexivity |]. split; [cbn; auto |].
  intros Hunknown Hreach. cbn.
  exact (unknown_never_cached self match_id s Hunknown Hreach).
Qed.

Lemma GetPrediction_not_found_witness :
  GetPrediction demo_servicer "X" initial_state =
    (Raise (RpcError NOT_FOUND),
     mkState ∅ 0 [CacheGet "X"; CallGetMatch "X"]) /\
  cache_data (snd (GetPrediction demo_servicer "X" initial_state)) !! "X"
    = None.
Proof.
  destruct (GetPrediction_not_found demo_servicer "X" initial_state
              (demo_match_unknown _)) as (Hcall & _ & Hcache).
  split; [exact Hcall |]. apply Hcache.
  - intros t mr. rewrite demo_match_unknown. discriminate.
  - apply reachable_start.
Defined.

(** C6: on the recompute path, once the match service has answered,
    an exception raised by the feature service, or by the model
    service on the features built, is the exception [GetPrediction]
    raises; the cache is what it was and no cache write took place. *)
Theorem GetPrediction_collaborator_error (self : PredictionServiceServicer)
  (match_id : string) (s : State) (e : exn) (mr : GetMatchResponse) :
  stale match_id s ->
  _match_stub self (clock s) match_id = Return mr ->
  (_feature_stub self (clock s) match_id = Raise e \/
   exists fr, _feature_stub self (clock s) match_id = Return fr /\
              _model_stub self (clock s) (features fr) = Raise e) ->
  exists s',
    GetPrediction self match_id s = (Raise e, s') /\
    cache_data s' = cache_data s /\
    exists evs, trace s' = trace s ++ evs /\ Forall not_a_write evs.
Proof.
  intros Hstale Hm Herr.
  assert (Hcall : exists s', GetPrediction self match_id s = (Raise e, s')).
  { rewrite (GetPrediction_miss _ _ _ Hstale).
    destruct Herr as [Hf | (fr & Hf & Hp)].
    - rewrite (_compute_prediction_feature_fails self match_id
                 (looked_up match_id s) _ _ Hm Hf). eauto.
    - rewrite (_compute_prediction_model_fails self match_id
                 (looked_up match_id s) _ _ _ Hm Hf Hp). eauto. }
  destruct Hcall as [s' Hcall]. exists s'. split; [exact Hcall |].
  exact (GetPrediction_failure_keeps_cache _ _ _ _ _ Hcall).
Qed.

Lemma GetPrediction_collaborator_error_witness :
  exists s',
    GetPrediction short_servicer "1" initial_state
      = (Raise (RpcError INVALID_ARGUMENT), s') /\
    cache_data s' = ∅ /\
    exists evs, trace s' = [] ++ evs /\ Forall not_a_write evs.
Proof.
  apply (GetPrediction_collaborator_error short_servicer "1" initial_state
           (RpcError INVALID_ARGUMENT) (mkGetMatchResponse demo_match)).
  - intros ts h d a Hc. cbn in Hc. rewrite lookup_empty in Hc. discriminate.
  - apply demo_match_known.
  - right. exists (mkBuildMatchFeaturesResponse [1500; 1500]).
    split; reflexivity.
Defined.



End OrchestratorClaims.

(** ** The stream *)

Section StreamClaims.

Import MatchService PredictionService.



(** C4, as the code has it: when a stub raises an [RpcError] during a
    pull, that pull yields nothing and raises nothing, the cache is
    what it was, and the generator is finished: later pulls do not run
    the loop body again. *)
Theorem StreamPrediction_failure_ends_stream (self : PredictionServiceServicer)
  (match_id : string)
  (g : generator) (s : State) (code : StatusCode) :
  g <> Finished ->
  first_failure self match_id (clock (resume g s)) = Some (RpcError code) ->
  exists s' evs,
    StreamPrediction_next self match_id g s = (StopIteration, Finished, s') /\
    cache_data s' = cache_data s /\
    trace s' = trace (resume g s) ++ evs /\ Forall not_a_write evs /\
    StreamPrediction_next self match_id Finished s'
      = (StopIteration, Finished, s') /\
    forall n, StreamPrediction_take self n match_id Finished s'
                = ([], Finished, s').
Proof.
  intros Hg Hfail.
  destruct (_compute_prediction_failure self match_id _ _ Hfail)
    as (evs & Hcomp & Hevs).
  eexists _, evs. split.
  - rewrite (StreamPrediction_next_live _ _ _ _ Hg). unfold loop_iteration.
    rewrite Hcomp. reflexivity.
  - split; [destruct g; reflexivity |].
    split; [reflexivity |]. split; [exact Hevs |].
    split; [reflexivity |]. intros n. apply StreamPrediction_take_finished.
Qed.

Lemma StreamPrediction_failure_ends_stream_witness :
  exists s' evs,
    StreamPrediction_next demo_servicer "X" Created initial_state
      = (StopIteration, Finished, s') /\
    cache_data s' = ∅ /\
    trace s' = [] ++ evs /\ Forall not_a_write evs /\
    StreamPrediction_next demo_servicer "X" Finished s'
      = (StopIteration, Finished, s') /\
    forall n, StreamPrediction_take demo_servicer n "X" Finished s'
                = ([], Finished, s').
Proof.
  apply (StreamPrediction_failure_ends_stream demo_servicer "X" Created
           initial_state NOT_FOUND).
  - discriminate.
  - apply demo_unknown_fails.
Defined.

(** C4, as the spec has it, fails: the match service answers
    NOT_FOUND on the first pull, and the generator is finished; the
    next pull asks no service and changes nothing. *)
Lemma StreamPrediction_stops_on_not_found :
  exists s',
    StreamPrediction_next demo_servicer "X" Created initial_state
      = (StopIteration, Finished, s') /\
    trace s' = [CallGetMatch "X"] /\
    StreamPrediction_next demo_servicer "X" Finished s'
      = (StopIteration, Finished, s') /\
    ~ (exists g' s'',
         StreamPrediction_next demo_servicer "X" Created initial_state
           = (StopIteration, g', s'') /\ g' <> Finished).
Proof.
  assert (Hnext : StreamPrediction_next demo_servicer "X" Created initial_state
            = (StopIteration, Finished, mkState ∅ 0 [CallGetMatch "X"])).
  { cbn [StreamPrediction_next]. unfold loop_iteration.
    rewrite (_compute_prediction_match_fails demo_servicer "X" initial_state
               _ (demo_match_unknown _)). reflexivity. }
  eexists. split; [exact Hnext |]. split; [reflexivity |].
  split; [reflexivity |].
  intros (g' & s'' & Heq & Hlive). rewrite Hnext in Heq.
  injection Heq as <- _. congruence.
Qed.

End StreamClaims.

(** * More of the code *)

(** ** Dictionaries *)

Section PyDictFacts.

Import PyDict.

Context {K V : Type} `{EqDecision K}.

Implicit Types (d : pydict K V) (k : K) (v : V).

Lemma dict_get_set_eq d k v : dict_get (dict_set d k v) k = Some v.
Proof.
  induction d as [| [k' v'] d IH]; cbn.
  - rewrite decide_True by reflexivity. reflexivity.
  - destruct (decide (k = k')) as [-> | Hne]; cbn.
    + rewrite decide_True by reflexivity. reflexivity.
    + rewrite decide_False by exact Hne. exact IH.
Qed.

Lemma dict_get_set_ne d k k' v :
  k <> k' -> dict_get (dict_set d k v) k' = dict_get d k'.
Proof.
  intros Hne. induction d as [| [k0 v0] d IH]; cbn.
  - rewrite decide_False by congruence. reflexivity.
  - destruct (decide (k = k0)) as [-> | Hne0]; cbn.
    + rewrite !decide_False by congruence. reflexivity.
    + destruct (decide (k' = k0)); [reflexivity | exact IH].
Qed.

Lemma dict_get_None d k : dict_get d k = None <-> k ∉ dict_keys d.
Proof.
  induction d as [| [k' v'] d IH]; cbn.
  - split; [intros _; apply not_elem_of_nil | reflexivity].
  - rewrite not_elem_of_cons. destruct (decide (k = k')) as [-> | Hne].
    + split; [discriminate | intros [Hk _]; congruence].
    + rewrite IH. tauto.
Qed.

(** Assigning to a new key appends; assigning to an old one keeps
    every key where it is. *)
Lemma dict_set_new d k v :
  dict_get d k = None -> dict_set d k v = d ++ [(k, v)].
Proof.
  induction d as [| [k' v'] d IH]; cbn; [reflexivity |].
  destruct (decide (k = k')); [discriminate |].
  intros Hnone. rewrite IH by exact Hnone. reflexivity.
Qed.

Lemma dict_keys_set_old d k v :
  dict_get d k <> None -> dict_keys (dict_set d k v) = dict_keys d.
Proof.
  unfold dict_keys.
  induction d as [| [k' v'] d IH]; cbn; [congruence |].
  destruct (decide (k = k')) as [-> | Hne]; cbn; [reflexivity |].
  intros Hsome. f_equal. apply IH, Hsome.
Qed.

Lemma dict_set_length_old d k v :
  dict_get d k <> None -> length (dict_set d k v) = length d.
Proof.
  induction d as [| [k' v'] d IH]; cbn; [congruence |].
  destruct (decide (k = k')) as [-> | Hne]; cbn; [reflexivity |].
  intros Hsome. rewrite IH by exact Hsome. reflexivity.
Qed.

Lemma dict_keys_NoDup_set d k v :
  NoDup (dict_keys d) -> NoDup (dict_keys (dict_set d k v)).
Proof.
  intros Hnd. destruct (dict_get d k) as [v0 |] eqn:Hget.
  - rewrite dict_keys_set_old by congruence. exact Hnd.
  - rewrite dict_set_new by exact Hget. unfold dict_keys.
    rewrite map_app. cbn. apply NoDup_app. split; [exact Hnd |].
    split; [| apply NoDup_singleton].
    intros x Hx Hin. apply list_elem_of_singleton in Hin. subst x.
    apply dict_get_None in Hget. exact (Hget Hx).
Qed.

(** With one pair per key, the pairs are the graph of [dict_get]. *)
Lemma dict_get_Some_elem d k v :
  NoDup (dict_keys d) -> dict_get d k = Some v <-> (k, v) ∈ d.
Proof.
  induction d as [| [k' v'] d IH]; cbn; intros Hnd.
  - split; [discriminate | intros Hin; inversion Hin].
  - apply NoDup_cons in Hnd as [Hk' Hnd]. rewrite elem_of_cons.
    destruct (decide (k = k')) as [-> | Hne].
    + split; [intros [= ->]; left; reflexivity |].
      intros [[= ->] | Hin]; [reflexivity |].
      exfalso. apply Hk'. apply list_elem_of_fmap. exists (k', v). auto.
    + rewrite (IH Hnd). split; [auto |].
      intros [[= -> ->] | Hin]; [congruence | exact Hin].
Qed.

End PyDictFacts.

Section PyDictAsMap.

Import PyDict.

Context {V : Type}.

Implicit Types (d : pydict string V) (k : string) (v : V).

(** The finite map with the same lookups. *)
Lemma dict_get_list_to_map d k :
  (list_to_map d : gmap string V) !! k = dict_get d k.
Proof.
  induction d as [| [k' v'] d IH]; cbn; [apply lookup_empty |].
  destruct (decide (k = k')) as [-> | Hne].
  - apply lookup_insert_eq.
  - rewrite lookup_insert_ne by congruence. exact IH.
Qed.

Lemma dict_set_list_to_map d k v :
  (list_to_map (dict_set d k v) : gmap string V) = <[k := v]> (list_to_map d).
Proof.
  apply map_eq. intros k'. rewrite dict_get_list_to_map.
  destruct (decide (k = k')) as [<- | Hne].
  - rewrite lookup_insert_eq. apply dict_get_set_eq.
  - rewrite lookup_insert_ne by exact Hne.
    rewrite dict_get_list_to_map. apply dict_get_set_ne, Hne.
Qed.

End PyDictAsMap.

(** ** The match and team repositories *)

Section Histories.

Import PyDict.

Context {V : Type}.

Implicit Types (d : pydict string V) (k : string) (v : V).

Lemma last_filter_cons {A : Type} (P : A -> Prop) `{!forall x, Decision (P x)}
  (x : A) (l : list A) :
  last (filter P (x :: l)) =
    match last (filter P l) with
    | Some y => Some y
    | None => if decide (P x) then Some x else None
    end.
Proof.
  rewrite filter_cons. destruct (decide (P x)) as [Hx | Hx].
  - rewrite last_cons. reflexivity.
  - destruct (last (filter P l)); reflexivity.
Qed.

(** After a series of assignments through a key function, a key holds
    the last value assigned to it. *)
Lemma dict_get_fold_set (key : V -> string) (vs : list V) d k :
  dict_get (fold_left (fun d v => dict_set d (key v) v) vs d) k =
    match last (filter (fun v => key v = k) vs) with
    | Some v => Some v
    | None => dict_get d k
    end.
Proof.
  revert d. induction vs as [| v vs IH]; intros d; cbn [fold_left].
  - reflexivity.
  - rewrite IH, last_filter_cons.
    destruct (last (filter (fun v => key v = k) vs)); [reflexivity |].
    destruct (decide (key v = k)) as [<- | Hne].
    + apply dict_get_set_eq.
    + apply dict_get_set_ne, Hne.
Qed.

Lemma keyed_by_set (key : V -> string) d v :
  keyed_by key d -> keyed_by key (dict_set d (key v) v).
Proof.
  intros [Hnd Hkeys]. split; [apply dict_keys_NoDup_set, Hnd |].
  clear Hnd. induction d as [| [k' v'] d IH]; cbn.
  - repeat constructor.
  - apply Forall_cons in Hkeys as [Hk Hkeys].
    destruct (decide (key v = k')); constructor; auto.
Qed.

Lemma keyed_by_values (key : V -> string) d :
  keyed_by key d -> map key (dict_values d) = dict_keys d.
Proof.
  intros [_ Hkeys]. unfold dict_values, dict_keys.
  induction Hkeys as [| [k v] d Hk _ IH]; cbn; [reflexivity |].
  cbn in Hk. rewrite IH, Hk. reflexivity.
Qed.

Lemma keyed_by_elem (key : V -> string) d v :
  keyed_by key d -> v ∈ dict_values d <-> dict_get d (key v) = Some v.
Proof.
  intros [Hnd Hkeys]. rewrite (dict_get_Some_elem _ _ _ Hnd).
  unfold dict_values. rewrite list_elem_of_fmap. split.
  - intros ([k v'] & -> & Hin). cbn.
    rewrite Forall_forall in Hkeys. specialize (Hkeys _ Hin). cbn in Hkeys.
    rewrite <- Hkeys. exact Hin.
  - intros Hin. exists (key v, v). auto.
Qed.

End Histories.

Section MatchRepositoryFacts.

Import PyDict MatchServer.

Lemma after_keyed (ops : list operation) :
  keyed_by MatchService.id (_matches (after ops)).
Proof.
  unfold after.
  assert (Hgen : forall repo, keyed_by MatchService.id (_matches repo) ->
            keyed_by MatchService.id (_matches (fold_left perform ops repo))).
  { induction ops as [| op ops IH]; intros repo Hrepo; [exact Hrepo |].
    cbn [fold_left]. apply IH. destruct op as [m | ev]; cbn.
    - apply keyed_by_set, Hrepo.
    - exact Hrepo. }
  apply Hgen. split; [apply NoDup_nil_2 | constructor].
Qed.

Lemma fold_perform_matches (ops : list operation) (repo : MatchRepository) :
  _matches (fold_left perform ops repo) =
    fold_left (fun d m => dict_set d (MatchService.id m) m) (added ops)
      (_matches repo).
Proof.
  revert repo. induction ops as [| [m | ev] ops IH]; intros repo;
    cbn [fold_left]; [reflexivity | |]; rewrite IH; reflexivity.
Qed.

Lemma fold_perform_events (ops : list operation) (repo : MatchRepository)
  (i : string) :
  events_for (fold_left perform ops repo) i =
    events_for repo i ++
    filter (fun ev => event_match_id ev = i) (pushed ops).
Proof.
  revert repo. induction ops as [| [m | ev] ops IH]; intros repo;
    cbn [fold_left].
  - cbn. rewrite app_nil_r. reflexivity.
  - rewrite IH. reflexivity.
  - rewrite IH. change (pushed (Push ev :: ops)) with (ev :: pushed ops).
    rewrite filter_cons. unfold events_for at 1. cbn.
    destruct (decide (event_match_id ev = i)) as [<- | Hne].
    + rewrite dict_get_set_eq. fold (events_for repo (event_match_id ev)).
      rewrite <- app_assoc. reflexivity.
    + rewrite dict_get_set_ne by exact Hne. reflexivity.
Qed.

End MatchRepositoryFacts.

Section RepositoryExtras.

Import PyDict.

Lemma last_filter_None {A : Type} (P : A -> Prop)
  `{!forall x, Decision (P x)} (l : list A) :
  last (filter P l) = None <-> Forall (fun x => ~ P x) l.
Proof.
  rewrite last_None. induction l as [| x l IH].
  - split; [constructor | reflexivity].
  - rewrite filter_cons, Forall_cons. destruct (decide (P x)) as [Hx | Hx].
    + split; [discriminate | tauto].
    + rewrite IH. tauto.
Qed.

Lemma after_adding_keyed (teams : list TeamService.Team) :
  keyed_by TeamService.id (TeamService.after_adding teams).
Proof.
  unfold TeamService.after_adding.
  assert (Hgen : forall d : pydict string TeamService.Team,
            keyed_by TeamService.id d ->
            keyed_by TeamService.id (fold_left TeamService.add_team teams d)).
  { induction teams as [| t ts IH]; intros d Hd; [exact Hd |].
    cbn [fold_left]. apply IH. unfold TeamService.add_team.
    apply keyed_by_set, Hd. }
  apply Hgen. split; [apply NoDup_nil_2 | constructor].
Qed.

(** The repository the prediction pipeline was given as a finite map
    answers [GetMatch] as the repository with listing and events. *)
Lemma GetMatch_models_agree (repo : MatchServer.MatchRepository)
  (i : string) :
  MatchService.GetMatch (MatchServer.matches_map repo) i =
  MatchServer.GetMatch repo i.
Proof.
  unfold MatchService.GetMatch, MatchService.get_match, MatchServer.GetMatch,
    MatchServer.get_match, MatchServer.matches_map.
  rewrite dict_get_list_to_map. reflexivity.
Qed.

(** X1: after any series of additions and pushed events, [get_match]
    gives for an id the match added last under it; [GetMatch] answers
    NOT_FOUND exactly for the ids under which nothing was added, and
    otherwise hands out a match that bears the id asked for. *)
Theorem GetMatch_latest (ops : list MatchServer.operation) (i : string) :
  MatchServer.get_match (MatchServer.after ops) i =
    last (filter (fun m => MatchService.id m = i) (MatchServer.added ops)) /\
  (stub_call (MatchServer.GetMatch (MatchServer.after ops) i)
     = Raise (RpcError NOT_FOUND) <->
   Forall (fun m => MatchService.id m <> i) (MatchServer.added ops)) /\
  (forall resp,
     stub_call (MatchServer.GetMatch (MatchServer.after ops) i) = Return resp ->
     MatchService.id (MatchService.match_ resp) = i /\
     MatchService.match_ resp ∈ MatchServer.added ops).
Proof.
  assert (Hget : MatchServer.get_match (MatchServer.after ops) i =
    last (filter (fun m => MatchService.id m = i) (MatchServer.added ops))).
  { unfold MatchServer.get_match, MatchServer.after.
    rewrite fold_perform_matches, dict_get_fold_set.
    destruct (last _); reflexivity. }
  split; [exact Hget |]. unfold MatchServer.GetMatch. rewrite Hget.
  assert (Hnone :
    last (filter (fun m => MatchService.id m = i) (MatchServer.added ops))
      = None <->
    Forall (fun m => MatchService.id m <> i) (MatchServer.added ops))
    by apply last_filter_None.
  split.
  - rewrite <- Hnone.
    destruct (last _) as [m |]; cbn; split; intros Heq;
      (discriminate Heq || reflexivity).
  - intros resp.
    destruct (last _) as [m |] eqn:Hlast; cbn; [| discriminate].
    intros [= <-]. cbn. apply last_Some_elem_of in Hlast.
    apply list_elem_of_filter in Hlast. tauto.
Qed.

(** X2: the full listing holds one match per id, namely the match
    [get_match] gives for that id; a stage that is not empty selects
    the matches of that stage, in the order of the full listing, and
    the empty stage of a [ListMatches] request selects them all.
    Adding a match under an id already held keeps every id in its
    place; a match under a new id goes to the end. *)
Theorem list_matches_by_id (ops : list MatchServer.operation) :
  let repo := MatchServer.after ops in
  let everything := MatchServer.list_matches repo None in
  NoDup (map MatchService.id everything) /\
  (forall m, m ∈ everything <->
             MatchServer.get_match repo (MatchService.id m) = Some m) /\
  (forall c rest,
     MatchServer.list_matches repo (Some (String c rest)) =
       filter (fun m => MatchService.stage m = String c rest) everything) /\
  MatchServer.ListMatches repo EmptyString = Return (OK, everything) /\
  (forall m,
     map MatchService.id
       (MatchServer.list_matches (MatchServer.add_match repo m) None) =
     match MatchServer.get_match repo (MatchService.id m) with
     | Some _ => map MatchService.id everything
     | None => map MatchService.id everything ++ [MatchService.id m]
     end).
Proof.
  intros repo everything. pose proof (after_keyed ops) as Hkeyed.
  fold repo in Hkeyed. unfold everything, MatchServer.list_matches.
  split; [| split; [| split; [| split]]].
  - rewrite (keyed_by_values _ _ Hkeyed). exact (proj1 Hkeyed).
  - intros m. apply (keyed_by_elem _ _ _ Hkeyed).
  - reflexivity.
  - reflexivity.
  - intros m. cbn [MatchServer.add_match MatchServer._matches].
    rewrite (keyed_by_values _ _ (keyed_by_set _ _ m Hkeyed)).
    rewrite (keyed_by_values _ _ Hkeyed). unfold MatchServer.get_match.
    destruct (dict_get (MatchServer._matches repo) (MatchService.id m))
      as [m0 |] eqn:Hget.
    + apply dict_keys_set_old. congruence.
    + rewrite dict_set_new by exact Hget. unfold dict_keys.
      rewrite map_app. reflexivity.
Qed.

(** X3: the events stored for a match id are the pushed events that
    bear this id, in the order they were pushed, whether or not a
    match was ever added under it; [PushEvent] always answers
    [ok = True] and leaves the matches alone. *)
Theorem PushEvent_log (ops : list MatchServer.operation) (i : string) :
  MatchServer.events_for (MatchServer.after ops) i =
    filter (fun ev => MatchServer.event_match_id ev = i)
      (MatchServer.pushed ops) /\
  (forall repo ev,
     snd (MatchServer.PushEvent repo ev) = Return (OK, true) /\
     MatchServer._matches (fst (MatchServer.PushEvent repo ev))
       = MatchServer._matches repo /\
     MatchServer.events_for (fst (MatchServer.PushEvent repo ev))
       (MatchServer.event_match_id ev)
       = MatchServer.events_for repo (MatchServer.event_match_id ev) ++ [ev]).
Proof.
  split.
  - unfold MatchServer.after. rewrite fold_perform_events. reflexivity.
  - intros repo ev. split; [reflexivity |]. split; [reflexivity |].
    unfold MatchServer.events_for at 1. cbn.
    rewrite dict_get_set_eq. reflexivity.
Qed.

(** X4: after any series of [add_team], [get_team] gives for an id the
    team added last under it, [GetTeam] answers NOT_FOUND exactly for
    the ids under which no team was added, and [list_teams] holds one
    team per id, namely the one [get_team] gives. *)
Theorem GetTeam_latest (teams : list TeamService.Team) (i : string) :
  let repo := TeamService.after_adding teams in
  TeamService.get_team repo i =
    last (filter (fun t => TeamService.id t = i) teams) /\
  (stub_call (TeamService.GetTeam repo i) = Raise (RpcError NOT_FOUND) <->
   Forall (fun t => TeamService.id t <> i) teams) /\
  NoDup (map TeamService.id (TeamService.list_teams repo)) /\
  (forall t, t ∈ TeamService.list_teams repo <->
             TeamService.get_team repo (TeamService.id t) = Some t).
Proof.
  intros repo.
  assert (Hget : TeamService.get_team repo i =
            last (filter (fun t => TeamService.id t = i) teams)).
  { unfold repo, TeamService.get_team, TeamService.after_adding.
    unfold TeamService.add_team. rewrite dict_get_fold_set.
    destruct (last _); reflexivity. }
  pose proof (after_adding_keyed teams) as Hkeyed. fold repo in Hkeyed.
  split; [exact Hget |]. split; [| split].
  - assert (Hnone :
      last (filter (fun t => TeamService.id t = i) teams) = None <->
      Forall (fun t => TeamService.id t <> i) teams)
      by apply last_filter_None.
    unfold TeamService.GetTeam. rewrite Hget, <- Hnone.
    destruct (last _) as [t |]; cbn; split; intros Heq;
      (discriminate Heq || reflexivity).
  - unfold TeamService.list_teams.
    rewrite (keyed_by_values _ _ Hkeyed). exact (proj1 Hkeyed).
  - intros t. apply (keyed_by_elem _ _ _ Hkeyed).
Qed.

End RepositoryExtras.

(** ** The feature service *)

Section FeatureExtras.

Import FeatureService.







Lemma BuildMatchFeatures_through_stubs (matches : MatchServer.MatchRepository)
  (teams : TeamService.TeamRepository) (match_id : string) :
  let self := wired matches teams in
  stub_call (fst (BuildMatchFeatures self match_id)) =
    match MatchServer.get_match matches match_id with
    | None => Raise (RpcError UNKNOWN)
    | Some m =>
        match TeamService.get_team teams (MatchService.home_team_id m),
              TeamService.get_team teams (MatchService.away_team_id m) with
        | Some home, Some away =>
            Return
              (PredictionService.mkBuildMatchFeaturesResponse
                 [or_1500 (TeamService.elo_rating home);
                  or_1500 (TeamService.elo_rating away);
                  or_1500 (TeamService.elo_rating home)
                    - or_1500 (TeamService.elo_rating away);
                  is_knockout_of (MatchService.stage m)])
        | _, _ => Raise (RpcError UNKNOWN)
        end
    end /\
  (MatchServer.get_match matches match_id = None ->
   snd (BuildMatchFeatures self match_id) = [AskMatch match_id]).
Proof.
  intros self. unfold BuildMatchFeatures, self, wired.
  cbn [_match_stub _team_stub].
  unfold MatchServer.GetMatch, TeamService.GetTeam.
  destruct (MatchServer.get_match matches match_id) as [m |]; cbn;
    [| split; reflexivity].
  split; [| discriminate].
  destruct (TeamService.get_team teams (MatchService.home_team_id m))
    as [home |]; cbn; [| reflexivity].
  destruct (TeamService.get_team teams (MatchService.away_team_id m))
    as [away |]; cbn; reflexivity.
Qed.

(** X6: through its stubs to a match service and a team service, the
    feature service answers the four features when the match and both
    its teams are stored, a zero rating counting as 1500; in every
    other case its caller gets status UNKNOWN, also when the match
    service said NOT_FOUND, and a team is asked for only once the
    match is there. *)
Theorem BuildMatchFeatures_wired (matches : MatchServer.MatchRepository)
  (teams : TeamService.TeamRepository) (match_id : string) :
  let self := wired matches teams in
  stub_call (fst (BuildMatchFeatures self match_id)) =
    match MatchServer.get_match matches match_id with
    | None => Raise (RpcError UNKNOWN)
    | Some m =>
        match TeamService.get_team teams (MatchService.home_team_id m),
              TeamService.get_team teams (MatchService.away_team_id m) with
        | Some home, Some away =>
            Return
              (PredictionService.mkBuildMatchFeaturesResponse
                 [or_1500 (TeamService.elo_rating home);
                  or_1500 (TeamService.elo_rating away);
                  or_1500 (TeamService.elo_rating home)
                    - or_1500 (TeamService.elo_rating away);
                  is_knockout_of (MatchService.stage m)])
        | _, _ => Raise (RpcError UNKNOWN)
        end
    end /\
  (MatchServer.get_match matches match_id = None ->
   snd (BuildMatchFeatures self match_id) = [AskMatch match_id]).
Proof.
  intros self. unfold BuildMatchFeatures, self, wired.
  cbn [_match_stub _team_stub].
  unfold MatchServer.GetMatch, TeamService.GetTeam.
  destruct (MatchServer.get_match matches match_id) as [m |]; cbn;
    [| split; reflexivity].
  split; [| discriminate].
  destruct (TeamService.get_team teams (MatchService.home_team_id m))
    as [home |]; cbn; [| reflexivity].
  destruct (TeamService.get_team teams (MatchService.away_team_id m))
    as [away |]; cbn; reflexivity.
Qed.

End FeatureExtras.

(** ** More on the outcome model *)

Section OutcomeModelExtras.

Import ModelService.

(** The three probabilities returned, against the three numbers before
    normalisation. *)
Lemma normalize_fields (home draw away : R) :
  0 < home + draw + away ->
  let r := normalize home draw away in
  home_win_prob r * (home + draw + away) = home /\
  draw_prob r * (home + draw + away) = draw /\
  away_win_prob r * (home + draw + away) = away.
Proof.
  intros Ht. unfold normalize.
  destruct (Rle_dec (home + draw + away) 0) as [Hle | _]; [lra |].
  cbn. repeat split; field; lra.
Qed.

Lemma exp_neg_le_1 (x : R) : 0 <= x -> exp (- x) <= 1.
Proof.
  intros Hx. destruct (Req_dec_T x 0) as [-> | Hne].
  - rewrite Ropp_0, exp_0. lra.
  - left. rewrite <- exp_0. apply exp_increasing. lra.
Qed.

Lemma exp_neg_le_eighth (x : R) : 3 <= x -> exp (- x) <= 1 / 8.
Proof.
  intros Hx.
  assert (H3 : 8 <= exp 3).
  { replace 3 with (INR 3) by (rewrite INR_IZR_INZ; reflexivity).
    rewrite exp_INR. pose proof exp_1_ge_2 as H2.
    replace 8 with (2 ^ 3) by lra. apply pow_incr. lra. }
  assert (Hle : exp 3 <= exp x).
  { destruct (Req_dec_T x 3) as [-> | Hne]; [apply Rle_refl |].
    left. apply exp_increasing. lra. }
  rewrite exp_Ropp.
  assert (/ exp x <= / 8) by (apply Rinv_le_contravar; lra).
  lra.
Qed.

Lemma base_score_sign (elo_diff is_knockout : R) :
  0 <= elo_diff -> elo_diff / 300 <= base_score elo_diff is_knockout.
Proof.
  intros Hd. unfold base_score.
  destruct (Rlt_dec (5 / 10) is_knockout); lra.
Qed.

(** [_sigmoid] on a score that is not negative. *)
Lemma _sigmoid_nonneg (x : R) :
  0 <= x ->
  exists e, _sigmoid x = Return (1 / (1 + e)) /\ 0 < e <= 1 /\ e = exp (- x).
Proof.
  intros Hx. unfold _sigmoid. rewrite math_exp_in_range by lra.
  exists (exp (- x)). split; [reflexivity |].
  split; [| reflexivity]. split; [apply exp_pos | apply exp_neg_le_1, Hx].
Qed.

(** X7: when the home side is rated at least as high as the away
    side, whatever the gap and the knockout flag, the model returns a
    triple; the home-win probability is at least one half and the
    away-win probability at most 0.35. *)
Theorem PredictMatchOutcome_home_ahead (fs : list R) :
  (4 <= length fs)%nat -> 0 <= nth 2 fs 0 ->
  exists r,
    PredictMatchOutcome fs = Return (OK, r) /\
    1 / 2 <= home_win_prob r /\ away_win_prob r <= 35 / 100.
Proof.
  intros Hlen Hdiff. rewrite (PredictMatchOutcome_long fs Hlen).
  pose proof (base_score_sign (nth 2 fs 0) (nth 3 fs 0) Hdiff) as Hbase.
  destruct (_sigmoid_nonneg (base_score (nth 2 fs 0) (nth 3 fs 0)))
    as (e & -> & [He0 He1] & _); [lra |].
  eexists. split; [reflexivity |].
  set (home := 1 / (1 + e)).
  assert (Hhome : 1 / 2 <= home < 1).
  { unfold home. split.
    - apply Rmult_le_reg_r with (1 + e); [lra |]. field_simplify; lra.
    - apply Rmult_lt_reg_r with (1 + e); [lra |]. field_simplify; lra. }
  pose proof (raw_draw_range (nth 2 fs 0)) as Hdraw.
  set (draw := raw_draw (nth 2 fs 0)) in *.
  assert (Haway : 0 <= raw_away home draw) by apply py_max_ge_l.
  assert (Haway' : raw_away home draw = 0 \/
                   raw_away home draw = 1 - home - draw)
    by apply py_max_cases.
  set (away := raw_away home draw) in *.
  assert (Htotal : 1 <= home + draw + away).
  { pose proof (py_max_ge_r 0 (1 - home - draw)) as Hr.
    fold (raw_away home draw) in Hr. fold away in Hr. lra. }
  destruct (normalize_fields home draw away) as (Hh & Hd & Ha); [lra |].
  set (r := normalize home draw away) in *.
  split.
  - destruct Haway' as [Hz | Hrest]; rewrite ?Hz, ?Hrest in *; nra.
  - destruct Haway' as [Hz | Hrest]; rewrite ?Hz, ?Hrest in *; nra.
Qed.

Lemma PredictMatchOutcome_home_ahead_witness :
  exists r,
    PredictMatchOutcome final_features = Return (OK, r) /\
    1 / 2 <= home_win_prob r /\ away_win_prob r <= 35 / 100.
Proof.
  apply PredictMatchOutcome_home_ahead; [simpl; lia | simpl; lra].
Defined.

Lemma raw_draw_floor (elo_diff : R) :
  200 <= Rabs elo_diff -> raw_draw elo_diff = 15 / 100.
Proof.
  intros Hgap. unfold raw_draw, py_max.
  destruct (Rlt_dec (15 / 100) (35 / 100 - Rabs elo_diff / 1000)); lra.
Qed.

(** X8: once the home side is 900 rating points or more ahead, the
    away-win probability returned is exactly 0, and the draw
    probability returned is below the 0.15 that the code takes as its
    least value before normalisation. *)
Theorem PredictMatchOutcome_away_clipped (fs : list R) :
  (4 <= length fs)%nat -> 900 <= nth 2 fs 0 ->
  exists r,
    PredictMatchOutcome fs = Return (OK, r) /\
    away_win_prob r = 0 /\ draw_prob r < 15 / 100 /\
    home_win_prob r + draw_prob r = 1.
Proof.
  intros Hlen Hdiff. rewrite (PredictMatchOutcome_long fs Hlen).
  assert (Hbase : 3 <= base_score (nth 2 fs 0) (nth 3 fs 0)).
  { pose proof (base_score_sign (nth 2 fs 0) (nth 3 fs 0)). lra. }
  destruct (_sigmoid_nonneg (base_score (nth 2 fs 0) (nth 3 fs 0)))
    as (e & -> & [He0 _] & He); [lra |].
  assert (He8 : e <= 1 / 8) by (rewrite He; apply exp_neg_le_eighth, Hbase).
  eexists. split; [reflexivity |].
  rewrite raw_draw_floor by (rewrite Rabs_pos_eq; lra).
  set (home := 1 / (1 + e)).
  assert (Hhome : 8 / 9 <= home < 1).
  { unfold home. split.
    - apply Rmult_le_reg_r with (1 + e); [lra |]. field_simplify; lra.
    - apply Rmult_lt_reg_r with (1 + e); [lra |]. field_simplify; lra. }
  assert (Haway : raw_away home (15 / 100) = 0).
  { unfold raw_away, py_max.
    destruct (Rlt_dec 0 (1 - home - 15 / 100)); lra. }
  rewrite Haway.
  destruct (normalize_fields home (15 / 100) 0) as (Hh & Hd & Ha); [lra |].
  set (r := normalize home (15 / 100) 0) in *.
  assert (Hz : away_win_prob r = 0) by nra.
  split; [exact Hz |]. split; nra.
Qed.

Lemma PredictMatchOutcome_away_clipped_witness :
  exists r,
    PredictMatchOutcome [2500; 1500; 1000; 0] = Return (OK, r) /\
    away_win_prob r = 0 /\ draw_prob r < 15 / 100 /\
    home_win_prob r + draw_prob r = 1.
Proof.
  apply PredictMatchOutcome_away_clipped; [simpl; lia | simpl; lra].
Defined.

(** On numbers, every triple returned has its draw probability
    between 3/23 and 0.35, and at least 0.15 as soon as the away-win
    probability is not zero. *)
Lemma draw_share_range (fs : list R) (r : PredictMatchOutcomeResponse) :
  PredictMatchOutcome fs = Return (OK, r) ->
  3 / 23 <= draw_prob r <= 35 / 100 /\
  (away_win_prob r <> 0 -> 15 / 100 <= draw_prob r).
Proof.
  intros Hcall.
  destruct (Nat.lt_ge_cases (length fs) 4) as [Hlt | Hlen].
  { rewrite (PredictMatchOutcome_short fs Hlt) in Hcall. discriminate. }
  rewrite (PredictMatchOutcome_long fs Hlen) in Hcall.
  destruct (_sigmoid _) as [home |] eqn:Hs; [| discriminate].
  injection Hcall as <-.
  pose proof (_sigmoid_range _ _ Hs) as Hhome.
  pose proof (raw_draw_range (nth 2 fs 0)) as Hdraw.
  set (draw := raw_draw (nth 2 fs 0)) in *.
  assert (Haway : raw_away home draw = 0 /\ 1 <= home + draw \/
                  raw_away home draw = 1 - home - draw /\ home + draw < 1).
  { unfold raw_away, py_max.
    destruct (Rlt_dec 0 (1 - home - draw)); [right | left]; lra. }
  set (away := raw_away home draw) in *.
  destruct (normalize_fields home draw away) as (Hh & Hd & Ha);
    [destruct Haway as [[-> _] | [-> _]]; lra |].
  set (p := normalize home draw away) in *.
  destruct Haway as [[Hz Hsum] | [Hrest Hsum]]; rewrite ?Hz, ?Hrest in *.
  - split; [split; nra |]. intros Hnz. exfalso. apply Hnz. nra.
  - replace (home + draw + (1 - home - draw)) with 1 in * by lra.
    split; [lra |]. intros _. lra.
Qed.

(** A vector of four features or more, with a difference that is not
    far below zero, gets a triple of probabilities. *)
Lemma PredictMatchOutcome_normalized (fs : list R) :
  (4 <= length fs)%nat -> - 160000 <= nth 2 fs 0 ->
  exists r,
    PredictMatchOutcome fs = Return (OK, r) /\
    0 <= home_win_prob r <= 1 /\ 0 <= draw_prob r <= 1 /\
    0 <= away_win_prob r <= 1 /\
    home_win_prob r + draw_prob r + away_win_prob r = 1.
Proof.
  intros Hlen Hdiff. rewrite (PredictMatchOutcome_long fs Hlen).
  destruct (_sigmoid (base_score (nth 2 fs 0) (nth 3 fs 0)))
    as [home | err] eqn:Hs.
  - eexists. split; [reflexivity |].
    destruct (raw_total_positive _ (nth 2 fs 0) _ Hs) as (Hh & Hd & Ha & Ht).
    exact (normalize_shares _ _ _ Hh Hd Ha Ht).
  - exfalso. unfold _sigmoid in Hs. rewrite math_exp_in_range in Hs.
    + discriminate.
    + pose proof (base_score_bounds (nth 2 fs 0) (nth 3 fs 0) Hdiff). lra.
Qed.

End OutcomeModelExtras.

Section OutcomeModelNaNExtras.

Import ModelServiceNaN.

(** X9: on a vector whose rating difference is a number, whatever the
    other features are, NaN included, every triple the model returns
    has a number as its draw probability, at least 3/23 and at most
    0.35, and at least 0.15 as soon as the away-win probability is not
    zero. *)
Theorem PredictMatchOutcome_draw_range (fs : list pyfloat) (d : R)
  (r : PredictMatchOutcomeResponse) :
  nth 2 fs NaN = Num d ->
  PredictMatchOutcome fs = Return (OK, r) ->
  exists x,
    draw_prob r = Num x /\ 3 / 23 <= x <= 35 / 100 /\
    (away_win_prob r <> Num 0 -> 15 / 100 <= x).
Proof.
  intros Hgap Hcall.
  destruct (Nat.lt_ge_cases (length fs) 4) as [Hlt | Hlen].
  { rewrite (PredictMatchOutcome_short_vector fs Hlt) in Hcall.
    discriminate. }
  rewrite (PredictMatchOutcome_number_gap fs d Hlen Hgap) in Hcall.
  destruct (ModelService.PredictMatchOutcome _) as [[code p] | err] eqn:Hp;
    [| discriminate].
  injection Hcall as -> <-.
  destruct (draw_share_range _ _ Hp) as [Hrange Hfloor].
  exists (ModelService.draw_prob p).
  split; [reflexivity |]. split; [exact Hrange |].
  intros Hnz. apply Hfloor. intros Hz. apply Hnz. cbn. rewrite Hz.
  reflexivity.
Qed.

Lemma PredictMatchOutcome_draw_range_witness :
  exists x,
    Num (35 / 100) = Num x /\ 3 / 23 <= x <= 35 / 100 /\
    (Num (15 / 100) <> Num 0 -> 15 / 100 <= x).
Proof.
  apply (PredictMatchOutcome_draw_range level_features 0
           (mkResponse (Num (1 / 2)) (Num (35 / 100)) (Num (15 / 100)))).
  - reflexivity.
  - change level_features with (map Num ModelService.level_features).
    rewrite PredictMatchOutcome_on_numbers.
    rewrite (PredictMatchOutcome_at_level ModelService.level_features)
      by (simpl; lia || reflexivity).
    reflexivity.
Defined.

End OutcomeModelNaNExtras.

(** ** The services wired together *)

Section DeploymentExtras.

Import PredictionService Deployment.

Variable matches : MatchServer.MatchRepository.
Variable teams : TeamService.TeamRepository.

Lemma deployment_match_stub (t : R) (i : string) :
  _match_stub (prediction_servicer matches teams) t i =
    match MatchServer.get_match matches i with
    | Some m => Return (MatchService.mkGetMatchResponse m)
    | None => Raise (RpcError NOT_FOUND)
    end.
Proof.
  cbn. unfold match_stub_to, MatchServer.GetMatch.
  destruct (MatchServer.get_match matches i); reflexivity.
Qed.

Lemma deployment_feature_stub (t : R) (i : string) :
  (exists fr,
     _feature_stub (prediction_servicer matches teams) t i = Return fr /\
     length (features fr) = 4%nat) \/
  _feature_stub (prediction_servicer matches teams) t i
    = Raise (RpcError UNKNOWN).
Proof.
  cbn [_feature_stub prediction_servicer]. unfold feature_stub_to.
  rewrite (proj1 (BuildMatchFeatures_through_stubs matches teams i)).
  destruct (MatchServer.get_match matches i) as [m |]; [| right; reflexivity].
  destruct (TeamService.get_team teams _) as [home |]; [| right; reflexivity].
  destruct (TeamService.get_team teams _) as [away |]; [| right; reflexivity].
  left. eexists. split; reflexivity.
Qed.

Lemma deployment_model_stub (t : R) (fs : list R) (e : exn) :
  length fs = 4%nat ->
  _model_stub (prediction_servicer matches teams) t fs = Raise e ->
  e = RpcError UNKNOWN.
Proof.
  intros Hlen. cbn. unfold model_stub_of_service.
  rewrite PredictMatchOutcome_long by lia.
  destruct (ModelService._sigmoid _); cbn; congruence.
Qed.

(** What can go wrong in a full computation of the deployment. *)
Lemma deployment_first_failure (t : R) (i : string) (e : exn) :
  first_failure (prediction_servicer matches teams) i t = Some e ->
  e = RpcError NOT_FOUND /\ MatchServer.get_match matches i = None \/
  e = RpcError UNKNOWN /\ MatchServer.get_match matches i <> None.
Proof.
  unfold first_failure. rewrite deployment_match_stub.
  destruct (MatchServer.get_match matches i) as [m |];
    [| intros [= <-]; left; auto].
  intros Hfail. right. split; [| discriminate].
  destruct (deployment_feature_stub t i) as [(fr & Hf & Hlen) | Hf];
    rewrite Hf in Hfail.
  - destruct (_model_stub _ t (features fr)) as [pr | e'] eqn:Hp;
      [discriminate |].
    injection Hfail as <-. exact (deployment_model_stub _ _ _ Hlen Hp).
  - congruence.
Qed.

(** X10: wired to the other services, [GetPrediction] can raise only
    two errors, whatever the repositories and the cache hold:
    NOT_FOUND, exactly when the match service does not have the match,
    and UNKNOWN; the INVALID_ARGUMENT of the model service is never
    met, the feature vector always being four long. *)
Theorem deployment_errors (i : string) (s : State) (e : exn) :
  fst (GetPrediction (prediction_servicer matches teams) i s) = Raise e ->
  e = RpcError NOT_FOUND /\ MatchServer.get_match matches i = None \/
  e = RpcError UNKNOWN /\ MatchServer.get_match matches i <> None.
Proof.
  set (self := prediction_servicer matches teams).
  destruct (fresh_or_stale i s) as [(ts & h & d & a & Hc & Hfresh) | Hstale].
  - rewrite (GetPrediction_hit self _ _ _ _ _ _ Hc Hfresh). cbn [fst].
    unfold hit_answer, self. rewrite deployment_match_stub.
    destruct (MatchServer.get_match matches i); [discriminate |].
    intros [= <-]. left. auto.
  - rewrite (GetPrediction_miss self _ _ Hstale).
    pose proof (_compute_prediction_cases self i (looked_up i s)) as Hcase.
    intros Heq. rewrite Heq in Hcase.
    inversion Hcase as [| e' evs Hfail _]; subst.
    exact (deployment_first_failure _ _ _ Hfail).
Qed.

(** X11: wired to the other services, a request that finds no fresh
    entry ends as follows.  If the match is stored but one of its
    teams is not, [GetPrediction] raises with status UNKNOWN and the
    cache is what it was.  If the match and both teams are stored and
    the home rating is not 160000 or more below the away rating (zero
    ratings counting as 1500), it returns the stored match with three
    probabilities in [0,1] that add up to 1, and caches these under
    the time of the call. *)
Theorem deployment_GetPrediction (i : string) (s : State) :
  stale i s ->
  let self := prediction_servicer matches teams in
  (forall m,
     MatchServer.get_match matches i = Some m ->
     TeamService.get_team teams (MatchService.home_team_id m) = None \/
     TeamService.get_team teams (MatchService.away_team_id m) = None ->
     exists s',
       GetPrediction self i s = (Raise (RpcError UNKNOWN), s') /\
       cache_data s' = cache_data s) /\
  (forall m home away,
     MatchServer.get_match matches i = Some m ->
     TeamService.get_team teams (MatchService.home_team_id m) = Some home ->
     TeamService.get_team teams (MatchService.away_team_id m) = Some away ->
     - 160000 <= FeatureService.or_1500 (TeamService.elo_rating home)
                 - FeatureService.or_1500 (TeamService.elo_rating away) ->
     exists resp s',
       GetPrediction self i s = (Return resp, s') /\
       match_info resp = m /\
       0 <= home_win_prob resp <= 1 /\ 0 <= draw_prob resp <= 1 /\
       0 <= away_win_prob resp <= 1 /\
       home_win_prob resp + draw_prob resp + away_win_prob resp = 1 /\
       cache_data s' =
         <[i := (clock s, home_win_prob resp, draw_prob resp,
                 away_win_prob resp)]> (cache_data s)).
Proof.
  intros Hstale self. rewrite (GetPrediction_miss self _ _ Hstale).
  split.
  - intros m Hm Hteam.
    assert (Hf : _feature_stub self (clock (looked_up i s)) i
                   = Raise (RpcError UNKNOWN)).
    { cbn [_feature_stub self prediction_servicer]. unfold feature_stub_to.
      rewrite (proj1 (BuildMatchFeatures_through_stubs matches teams i)), Hm.
      destruct Hteam as [-> | ->]; [reflexivity |].
      destruct (TeamService.get_team teams _); reflexivity. }
    rewrite (_compute_prediction_feature_fails self i (looked_up i s)
               (MatchService.mkGetMatchResponse m) (RpcError UNKNOWN)).
    + eexists. split; reflexivity.
    + unfold self. rewrite deployment_match_stub, Hm. reflexivity.
    + exact Hf.
  - intros m home away Hm Hh Ha Hdiff.
    set (fs := [FeatureService.or_1500 (TeamService.elo_rating home);
                FeatureService.or_1500 (TeamService.elo_rating away);
                FeatureService.or_1500 (TeamService.elo_rating home)
                  - FeatureService.or_1500 (TeamService.elo_rating away);
                FeatureService.is_knockout_of (MatchService.stage m)]).
    destruct (PredictMatchOutcome_normalized fs) as (pr & Hp & Hnorm);
      [cbn; lia | exact Hdiff |].
    rewrite (_compute_prediction_ok self i (looked_up i s)
               (MatchService.mkGetMatchResponse m)
               (mkBuildMatchFeaturesResponse fs) pr).
    + eexists _, _. split; [reflexivity |]. cbn. tauto.
    + unfold self. rewrite deployment_match_stub, Hm. reflexivity.
    + cbn [_feature_stub self prediction_servicer]. unfold feature_stub_to.
      rewrite (proj1 (BuildMatchFeatures_through_stubs matches teams i)).
      rewrite Hm, Hh, Ha. reflexivity.
    + cbn. unfold model_stub_of_service. rewrite Hp. reflexivity.
Qed.

End DeploymentExtras.

Section DeploymentExamples.

Import PredictionService Deployment.

Lemma demo_deployment_unknown :
  fst (GetPrediction demo_deployment "X" initial_state)
    = Raise (RpcError NOT_FOUND).
Proof.
  rewrite GetPrediction_miss.
  - rewrite (_compute_prediction_match_fails demo_deployment "X" _
               (RpcError NOT_FOUND)); [reflexivity |].
    unfold demo_deployment. rewrite deployment_match_stub. reflexivity.
  - intros ts h d a Hc. cbn in Hc. rewrite lookup_empty in Hc. discriminate.
Qed.

Lemma deployment_errors_witness :
  RpcError NOT_FOUND = RpcError NOT_FOUND /\
    MatchServer.get_match demo_matches "X" = None \/
  RpcError NOT_FOUND = RpcError UNKNOWN /\
    MatchServer.get_match demo_matches "X" <> None.
Proof.
  exact (deployment_errors demo_matches TeamService.demo_teams "X"
           initial_state _ demo_deployment_unknown).
Defined.

Lemma initial_state_stale (i : string) : stale i initial_state.
Proof.
  intros ts h d a Hc. cbn in Hc. rewrite lookup_empty in Hc. discriminate.
Qed.

Lemma deployment_GetPrediction_witness :
  exists resp s',
    GetPrediction demo_deployment "1" initial_state = (Return resp, s') /\
    match_info resp = MatchService.demo_match /\
    0 <= home_win_prob resp <= 1 /\ 0 <= draw_prob resp <= 1 /\
    0 <= away_win_prob resp <= 1 /\
    home_win_prob resp + draw_prob resp + away_win_prob resp = 1 /\
    cache_data s' =
      <["1" := (0, home_win_prob resp, draw_prob resp,
                away_win_prob resp)]> ∅.
Proof.
  apply (proj2 (deployment_GetPrediction demo_matches TeamService.demo_teams
                  "1" initial_state (initial_state_stale "1"))
           MatchService.demo_match
           (TeamService.mkTeam "ARG" "Argentina" "Argentina" 2100)
           (TeamService.mkTeam "FRA" "France" "France" 2050));
    try reflexivity.
  cbn [TeamService.elo_rating]. unfold FeatureService.or_1500.
  destruct (Req_dec_T 2100 0); destruct (Req_dec_T 2050 0); lra.
Defined.

End DeploymentExamples.

(** ** More on the prediction servicer *)

Section PredictionExtras.

Import MatchService PredictionService.

(** X12: without an entry younger than 10 seconds (an entry exactly
    10 seconds old is too old), and with the three services
    answering, [GetPrediction] looks the cache up, asks the match,
    feature and model services in that order, writes the model's
    probabilities under the current time over whatever was there, and
    returns them with the match. *)
Theorem GetPrediction_recomputes (self : PredictionServiceServicer)
  (i : string) (s : State) mr fr pr :
  stale i s ->
  _match_stub self (clock s) i = Return mr ->
  _feature_stub self (clock s) i = Return fr ->
  _model_stub self (clock s) (features fr) = Return pr ->
  GetPrediction self i s =
    (Return (mkGetPredictionResponse i (match_ mr)
               (ModelService.home_win_prob pr) (ModelService.draw_prob pr)
               (ModelService.away_win_prob pr)),
     mkState
       (<[i := (clock s, ModelService.home_win_prob pr,
                ModelService.draw_prob pr, ModelService.away_win_prob pr)]>
          (cache_data s))
       (clock s)
       (trace s ++ [CacheGet i; CallGetMatch i; CallBuildMatchFeatures i;
                    CallPredictMatchOutcome (features fr);
                    CacheSet i (clock s, ModelService.home_win_prob pr,
                                ModelService.draw_prob pr,
                                ModelService.away_win_prob pr)])).
Proof.
  intros Hstale Hm Hf Hp. rewrite (GetPrediction_miss self _ _ Hstale).
  rewrite (_compute_prediction_ok self i (looked_up i s) mr fr pr Hm Hf Hp).
  unfold computed_state, response_of, entry_of, looked_up, emit. cbn.
  rewrite <- app_assoc. reflexivity.
Qed.

Lemma expired_state_stale : stale "1" Deployment.expired_state.
Proof.
  intros ts h d a Hc. cbn in Hc. rewrite lookup_insert_eq in Hc.
  injection Hc as <- _ _ _. cbn. lra.
Qed.

Lemma GetPrediction_recomputes_witness :
  fst (GetPrediction demo_servicer "1" Deployment.expired_state) =
    Return (mkGetPredictionResponse "1" demo_match
              (1 / 2) (35 / 100) (15 / 100)) /\
  cache_data (snd (GetPrediction demo_servicer "1" Deployment.expired_state))
    !! "1" = Some (110, 1 / 2, 35 / 100, 15 / 100).
Proof.
  rewrite (GetPrediction_recomputes demo_servicer "1" Deployment.expired_state
             (mkGetMatchResponse demo_match)
             (mkBuildMatchFeaturesResponse [1500; 1500; 0; 1])
             (ModelService.mkModelResp (1 / 2) (35 / 100) (15 / 100))
             expired_state_stale (demo_match_known _) eq_refl
             (demo_model_answer _)).
  split; [reflexivity |]. cbn. apply lookup_insert_eq.
Defined.

(** What a full computation does to the entries of the cache. *)
Lemma _compute_prediction_entries (self : PredictionServiceServicer)
  (i j : string) (s : State) :
  (j <> i ->
   cache_data (snd (_compute_prediction self i s)) !! j = cache_data s !! j) /\
  (is_Some (cache_data s !! j) ->
   is_Some (cache_data (snd (_compute_prediction self i s)) !! j)).
Proof.
  pose proof (_compute_prediction_cases self i s) as Hcase.
  destruct (_compute_prediction self i s) as [out s1]. cbn [fst snd] in *.
  inversion Hcase as [mr fr pr Hm Hf Hp | e evs _ _]; subst; cbn.
  - split.
    + intros Hne. apply lookup_insert_ne. congruence.
    + intros Hsome. destruct (decide (i = j)) as [-> | Hne].
      * rewrite lookup_insert_eq. eauto.
      * rewrite lookup_insert_ne by exact Hne. exact Hsome.
  - split; auto.
Qed.

(** X13: a request or a stream pull for one id never removes an entry
    from the cache, and leaves the entries of all other ids exactly as
    they were. *)
Theorem cache_entries_kept (self : PredictionServiceServicer)
  (i j : string) (g : generator) (s : State) :
  (j <> i ->
   cache_data (snd (GetPrediction self i s)) !! j = cache_data s !! j /\
   cache_data (snd (StreamPrediction_next self i g s)) !! j
     = cache_data s !! j) /\
  (is_Some (cache_data s !! j) ->
   is_Some (cache_data (snd (GetPrediction self i s)) !! j) /\
   is_Some (cache_data (snd (StreamPrediction_next self i g s)) !! j)).
Proof.
  assert (Hget : cache_data (snd (GetPrediction self i s)) =
                 cache_data s \/
                 snd (GetPrediction self i s) =
                 snd (_compute_prediction self i (looked_up i s))).
  { destruct (fresh_or_stale i s)
      as [(ts & h & d & a & Hc & Hfresh) | Hstale].
    - left. rewrite (GetPrediction_hit self _ _ _ _ _ _ Hc Hfresh).
      reflexivity.
    - right. rewrite (GetPrediction_miss self _ _ Hstale). reflexivity. }
  assert (Hloop : forall s0,
            snd (loop_iteration self i s0)
              = snd (_compute_prediction self i s0)).
  { intros s0. unfold loop_iteration.
    destruct (_compute_prediction self i s0) as [[r | [c |]] s1]; reflexivity. }
  assert (Hnext : cache_data (snd (StreamPrediction_next self i g s)) =
                  cache_data s \/
                  exists s0, cache_data s0 = cache_data s /\
                    snd (StreamPrediction_next self i g s) =
                    snd (_compute_prediction self i s0)).
  { destruct g; cbn [StreamPrediction_next].
    - right. exists s. split; [reflexivity | apply Hloop].
    - right. eexists. split; [| apply Hloop]. reflexivity.
    - left. reflexivity. }
  split.
  - intros Hne. split.
    + destruct Hget as [-> | ->]; [reflexivity |].
      rewrite (proj1 (_compute_prediction_entries self i j _) Hne).
      reflexivity.
    + destruct Hnext as [-> | (s0 & Hs0 & ->)]; [reflexivity |].
      rewrite (proj1 (_compute_prediction_entries self i j _) Hne).
      rewrite Hs0. reflexivity.
  - intros Hsome. split.
    + destruct Hget as [-> | ->]; [exact Hsome |].
      apply _compute_prediction_entries. exact Hsome.
    + destruct Hnext as [-> | (s0 & Hs0 & ->)]; [exact Hsome |].
      apply _compute_prediction_entries. rewrite Hs0. exact Hsome.
Qed.

(** X14: a response yielded by the stream is in the cache: a
    [GetPrediction] for the same id made less than 10 seconds later
    takes the hit path and returns the probabilities of that
    response, whatever the services would compute by then. *)
Theorem stream_warms_cache (self other : PredictionServiceServicer)
  (i : string) (g g' : generator) (s s' : State)
  (resp : GetPredictionResponse) (dt : R) :
  StreamPrediction_next self i g s = (Yield resp, g', s') ->
  dt < 10 ->
  GetPrediction other i (later dt s') =
    (hit_answer other i (clock s' + dt)
       (home_win_prob resp) (draw_prob resp) (away_win_prob resp),
     mkState (cache_data s') (clock s' + dt)
       (trace s' ++ [CacheGet i; CallGetMatch i])).
Proof.
  intros Hnext Hdt.
  assert (Hg : g <> Finished) by (intros ->; discriminate Hnext).
  rewrite (StreamPrediction_next_live _ _ _ _ Hg) in Hnext.
  destruct (loop_iteration_yields _ _ _ _ _ _ Hnext) as [Hcomp _].
  computation_ended self i (resume g s) Hcomp Hcase.
  inversion Hcase as [mr fr pr Hm Hf Hp Hr Hs |]; subst.
  set (s1 := computed_state i (features fr)
               (entry_of (clock (resume g s)) pr) (resume g s)).
  assert (Hc : cache_data (later dt s1) !! i =
               Some (entry_of (clock (resume g s)) pr))
    by (cbn; apply lookup_insert_eq).
  rewrite (GetPrediction_hit other i (later dt s1) _ _ _ _ Hc);
    [reflexivity | cbn; lra].
Qed.

Lemma stream_warms_cache_witness :
  fst (GetPrediction demo_servicer "1"
         (later 4 (snd (StreamPrediction_next demo_servicer "1" Suspended
                          warm_state)))) =
    Return (mkGetPredictionResponse "1" demo_match
              (1 / 2) (35 / 100) (15 / 100)).
Proof.
  rewrite demo_warm_pull. cbn [snd].
  rewrite (stream_warms_cache demo_servicer demo_servicer "1" _ _ _ _ _ 4
             demo_warm_pull) by lra.
  cbn [fst]. unfold hit_answer. rewrite demo_match_known. reflexivity.
Defined.

End PredictionExtras.

(** ** The user service *)

Section UserExtras.

Import PyDict UserService.

Lemma user_id_of_inj (k1 k2 : nat) : user_id_of k1 = user_id_of k2 -> k1 = k2.
Proof.
  unfold user_id_of. cbn. intros [= Heq]. exact (pretty_nat_inj _ _ Heq).
Qed.

Lemma user_id_of_not_empty (k : nat) :
  exists c rest, user_id_of k = String c rest.
Proof. unfold user_id_of. cbn. eauto. Qed.

Lemma dict_get_snoc (reqs : list (string * string)) (u0 p0 u : string) :
  dict_get (reqs ++ [(u0, p0)]) u =
    match dict_get reqs u with
    | Some p => Some p
    | None => if decide (u = u0) then Some p0 else None
    end.
Proof.
  induction reqs as [| [u' p'] reqs IH]; cbn; [reflexivity |].
  destruct (decide (u = u')); [reflexivity | exact IH].
Qed.

Lemma after_registrations_snoc (reqs : list (string * string))
  (u0 p0 : string) :
  after_registrations (reqs ++ [(u0, p0)]) =
    snd (Register (after_registrations reqs) u0 p0).
Proof. unfold after_registrations. rewrite fold_left_app. reflexivity. Qed.

Lemma Register_state (repo : UserRepository) (u p : string) :
  snd (Register repo u p) = snd (register repo u p).
Proof.
  unfold Register. destruct (register repo u p) as [[uid |] r]; reflexivity.
Qed.

Lemma after_registrations_registered (reqs : list (string * string)) :
  registered reqs.
Proof.
  induction reqs as [| [u0 p0] reqs IH] using rev_ind.
  - unfold registered. cbn. split; [| split; [| split]].
    + intros u. rewrite lookup_empty. tauto.
    + intros u uid Hu. rewrite lookup_empty in Hu. discriminate.
    + intros u uid Hu. rewrite lookup_empty in Hu. discriminate.
    + intros u1 u2 uid Hu. rewrite lookup_empty in Hu. discriminate.
  - destruct IH as (I1 & I2 & I3 & I4). unfold registered.
    rewrite after_registrations_snoc, Register_state.
    set (repo := after_registrations reqs) in *. unfold register.
    destruct (_users_by_name repo !! u0) as [uid0 |] eqn:Hu0; cbn [snd].
    + (* the name is taken: nothing changes *)
      assert (Hreq0 : dict_get reqs u0 <> None)
        by (rewrite <- I1; congruence).
      split; [| split; [| split]].
      * intros u. rewrite dict_get_snoc, I1.
        destruct (dict_get reqs u) eqn:Hr; [split; discriminate |].
        destruct (decide (u = u0)) as [-> | _]; [congruence | tauto].
      * intros u uid Hu. destruct (I2 u uid Hu) as (p & Hp & Hpw).
        exists p. rewrite dict_get_snoc, Hp. auto.
      * exact I3.
      * exact I4.
    + (* a new name *)
      assert (Hreq0 : dict_get reqs u0 = None) by (apply I1, Hu0).
      set (n := size (_users_by_name repo)).
      assert (Hsize : size (<[u0 := user_id_of (n + 1)]> (_users_by_name repo))
                      = S n) by (apply map_size_insert_None, Hu0).
      assert (Hold : forall u uid, u <> u0 ->
                _users_by_name repo !! u = Some uid ->
                uid <> user_id_of (n + 1)).
      { intros u uid _ Hu Heq. destruct (I3 u uid Hu) as (k & Hk & ->).
        apply user_id_of_inj in Heq. fold n in Hk. lia. }
      cbn [_users_by_name _passwords]. split; [| split; [| split]].
      * intros u. rewrite dict_get_snoc.
        destruct (decide (u = u0)) as [-> | Hne].
        -- rewrite lookup_insert_eq, Hreq0. split; discriminate.
        -- rewrite lookup_insert_ne by congruence. rewrite I1.
           destruct (dict_get reqs u); [split; discriminate | tauto].
      * intros u uid Hu. rewrite dict_get_snoc.
        destruct (decide (u = u0)) as [-> | Hne].
        -- rewrite lookup_insert_eq in Hu. injection Hu as <-.
           exists p0. rewrite Hreq0, lookup_insert_eq. auto.
        -- rewrite lookup_insert_ne in Hu by congruence.
           destruct (I2 u uid Hu) as (p & Hp & Hpw).
           exists p. rewrite Hp. split; [reflexivity |].
           rewrite lookup_insert_ne; [exact Hpw |].
           intros Heq. exact (Hold u uid Hne Hu (eq_sym Heq)).
      * intros u uid Hu. rewrite Hsize.
        destruct (decide (u = u0)) as [-> | Hne].
        -- rewrite lookup_insert_eq in Hu. injection Hu as <-.
           exists (n + 1)%nat. split; [lia | reflexivity].
        -- rewrite lookup_insert_ne in Hu by congruence.
           destruct (I3 u uid Hu) as (k & Hk & ->). fold n in Hk.
           exists k. split; [lia | reflexivity].
      * intros u1 u2 uid Hu1 Hu2.
        destruct (decide (u1 = u0)) as [-> | Hne1];
          destruct (decide (u2 = u0)) as [-> | Hne2]; [reflexivity | | |].
        -- rewrite lookup_insert_eq in Hu1. injection Hu1 as <-.
           rewrite lookup_insert_ne in Hu2 by congruence.
           exfalso. exact (Hold u2 _ Hne2 Hu2 eq_refl).
        -- rewrite lookup_insert_eq in Hu2. injection Hu2 as <-.
           rewrite lookup_insert_ne in Hu1 by congruence.
           exfalso. exact (Hold u1 _ Hne1 Hu1 eq_refl).
        -- rewrite lookup_insert_ne in Hu1, Hu2 by congruence.
           exact (I4 u1 u2 uid Hu1 Hu2).
Qed.

Lemma Login_denied_or_ok (repo : UserRepository) (tok u p : string) :
  Login repo tok u p =
    match authenticate repo u p with
    | Some uid => (OK, mkLoginResponse uid tok)
    | None => (PERMISSION_DENIED, mkLoginResponse EmptyString EmptyString)
    end.
Proof.
  unfold Login. destruct (authenticate repo u p) as [[| c rest] |] eqn:Hauth;
    try reflexivity.
  exfalso. unfold authenticate in Hauth.
  destruct (_users_by_name repo !! u) as [[| c rest] |]; try discriminate.
  destruct (decide _); discriminate.
Qed.

(** X15: registering a name that is not held answers OK with the id
    "user-n", n being the number of users after it; from then on
    [Login] with that name and password answers OK with this id and
    the token drawn for the call, and with any other password answers
    PERMISSION_DENIED. *)
Theorem Register_then_Login (repo : UserRepository) (u p tok : string) :
  _users_by_name repo !! u = None ->
  let uid := user_id_of (size (_users_by_name repo) + 1) in
  fst (Register repo u p) = (OK, mkRegisterResponse uid) /\
  size (_users_by_name (snd (Register repo u p)))
    = (size (_users_by_name repo) + 1)%nat /\
  Login (snd (Register repo u p)) tok u p = (OK, mkLoginResponse uid tok) /\
  (forall p', p' <> p ->
     Login (snd (Register repo u p)) tok u p'
       = (PERMISSION_DENIED, mkLoginResponse EmptyString EmptyString)).
Proof.
  intros Hnew uid.
  assert (Hreg : Register repo u p =
            ((OK, mkRegisterResponse uid),
             mkUserRepository (<[u := uid]> (_users_by_name repo))
               (<[uid := p]> (_passwords repo))))
    by (unfold Register, register; rewrite Hnew; reflexivity).
  rewrite Hreg. cbn [fst snd _users_by_name].
  split; [reflexivity |].
  split; [rewrite (map_size_insert_None _ _ _ Hnew); lia |].
  assert (Hauth : forall p',
            authenticate
              (mkUserRepository (<[u := uid]> (_users_by_name repo))
                 (<[uid := p]> (_passwords repo))) u p' =
            if decide (p = p') then Some uid else None).
  { intros p'. unfold authenticate. cbn. rewrite lookup_insert_eq.
    destruct (user_id_of_not_empty (size (_users_by_name repo) + 1))
      as (c & rest & Hid).
    fold uid in Hid. rewrite Hid, <- Hid, lookup_insert_eq.
    destruct (decide (p = p')) as [-> | Hne].
    - rewrite decide_True by reflexivity. reflexivity.
    - rewrite decide_False by congruence. reflexivity. }
  split.
  - rewrite Login_denied_or_ok, Hauth, decide_True by reflexivity.
    reflexivity.
  - intros p' Hne. rewrite Login_denied_or_ok, Hauth.
    rewrite decide_False by congruence. reflexivity.
Qed.

Lemma Register_then_Login_witness :
  fst (Register new_repository "ann" "secret")
    = (OK, mkRegisterResponse
             (user_id_of (size (∅ : gmap string string) + 1))) /\
  Login (snd (Register new_repository "ann" "secret")) "t0" "ann" "secret"
    = (OK, mkLoginResponse (user_id_of (size (∅ : gmap string string) + 1))
             "t0").
Proof.
  destruct (Register_then_Login new_repository "ann" "secret" "t0"
              (lookup_empty _)) as (Hreg & _ & Hlogin & _).
  split; [exact Hreg | exact Hlogin].
Defined.

(** X16: after any series of [Register] requests, [Login] answers OK
    exactly for a name together with the password of the first
    request made for that name, and PERMISSION_DENIED otherwise;
    [Register] answers ALREADY_EXISTS exactly for the names already
    asked for, and then leaves the repository as it is. *)
Theorem Login_first_password (reqs : list (string * string))
  (tok u p : string) :
  let repo := after_registrations reqs in
  (fst (Login repo tok u p) = OK <-> dict_get reqs u = Some p) /\
  (fst (Login repo tok u p) = PERMISSION_DENIED <->
   dict_get reqs u <> Some p) /\
  (fst (fst (Register repo u p)) = ALREADY_EXISTS <->
   dict_get reqs u <> None) /\
  (fst (fst (Register repo u p)) = ALREADY_EXISTS ->
   snd (Register repo u p) = repo).
Proof.
  intros repo.
  destruct (after_registrations_registered reqs) as (I1 & I2 & I3 & _).
  fold repo in I1, I2, I3.
  assert (Hauth : authenticate repo u p <> None <-> dict_get reqs u = Some p).
  { unfold authenticate.
    destruct (_users_by_name repo !! u) as [uid |] eqn:Hu.
    - destruct (I2 u uid Hu) as (p0 & Hp0 & Hpw).
      destruct (I3 u uid Hu) as (k & _ & Hk).
      destruct (user_id_of_not_empty k) as (c & rest & Hid).
      rewrite Hk, Hid, <- Hid, <- Hk, Hpw, Hp0.
      destruct (decide (Some p0 = Some p)) as [Heq | Hne]; split;
        congruence.
    - apply I1 in Hu. rewrite Hu. split; congruence. }
  rewrite Login_denied_or_ok.
  split; [| split; [| split]].
  - rewrite <- Hauth. destruct (authenticate repo u p); cbn; split;
      congruence.
  - rewrite <- Hauth. destruct (authenticate repo u p); cbn; split;
      try congruence. intros Hx. exfalso. apply Hx. discriminate.
  - rewrite <- I1. unfold Register, register.
    destruct (_users_by_name repo !! u); cbn; split; congruence.
  - unfold Register, register.
    destruct (_users_by_name repo !! u); cbn; [reflexivity | discriminate].
Qed.

(** X17: after any series of [Register] requests, every name held has
    an id "user-k" with k between 1 and the number of users, and two
    different names never have the same id. *)
Theorem user_ids_unique (reqs : list (string * string))
  (u1 u2 uid1 uid2 : string) :
  let repo := after_registrations reqs in
  _users_by_name repo !! u1 = Some uid1 ->
  _users_by_name repo !! u2 = Some uid2 ->
  (exists k, (1 <= k <= size (_users_by_name repo))%nat /\
             uid1 = user_id_of k) /\
  (u1 <> u2 -> uid1 <> uid2).
Proof.
  intros repo Hu1 Hu2.
  destruct (after_registrations_registered reqs) as (_ & _ & I3 & I4).
  fold repo in I3, I4. split; [exact (I3 u1 uid1 Hu1) |].
  intros Hne Heq. subst uid2. exact (Hne (I4 u1 u2 uid1 Hu1 Hu2)).
Qed.

Lemma user_ids_unique_witness :
  (exists k,
     (1 <= k <= size (_users_by_name
                        (after_registrations
                           [("ann", "a"); ("bob", "b"); ("ann", "c")])))%nat /\
     "user-1" = user_id_of k) /\
  ("ann" <> "bob" -> "user-1" <> "user-2").
Proof.
  apply (user_ids_unique [("ann", "a"); ("bob", "b"); ("ann", "c")]
           "ann" "bob" "user-1" "user-2"); vm_compute; reflexivity.
Defined.

End UserExtras.

(** ** The gateway *)

Section GatewayExtras.

Import PredictionService Gateway.

(** X18: with its stub leading to the prediction servicer, [/predict]
    answers the six fields of the response when [GetPrediction]
    returns, and an HTTP 500 when it raises, whatever it raises: an
    exception of the servicer reaches the stub as status UNKNOWN, so
    the 404 that [predict] keeps for NOT_FOUND is never given, also
    for a match nobody knows. *)
Theorem predict_through_stub (servicer : PredictionServiceServicer)
  (s : State) (requested : string) :
  predict (prediction_stub servicer s) requested =
    match fst (GetPrediction servicer requested s) with
    | Return resp =>
        Responded
          (mkPredictPayload (match_id resp)
             (MatchService.home_team_id (match_info resp))
             (MatchService.away_team_id (match_info resp))
             (home_win_prob resp) (draw_prob resp) (away_win_prob resp))
    | Raise _ => HTTPException 500
    end /\
  predict (prediction_stub servicer s) requested <> HTTPException 404.
Proof.
  unfold predict, prediction_stub, served_GetPrediction.
  destruct (GetPrediction servicer requested s) as [[resp | e] s']; cbn;
    split; reflexivity || discriminate.
Qed.

Variable Json : Type.
Variable json_load : string -> option (pyvalue Json).
Variable empty_dataset : Json.

Lemma same_mtime_true (a b : option R) : same_mtime a b = true <-> a = b.
Proof.
  destruct a as [x |], b as [y |]; cbn; try (split; congruence).
  destruct (Req_dec_T x y); split; congruence.
Qed.

(** [_load_wc2026_data] is the fast path, or the path through the
    file. *)
Lemma load_wc2026_data_paths (file : DataFile) (force : bool)
  (g : Globals Json) :
  (exists cached,
     force = false /\ _wc2026_cache Json g = Value cached /\
     st_mtime file = _wc2026_mtime Json g /\
     _load_wc2026_data Json json_load empty_dataset file force g
       = (Some (Value cached), g, NotRead)) \/
  _load_wc2026_data Json json_load empty_dataset file force g =
    match file with
    | None => (Some (Value empty_dataset),
               mkGlobals Json (Value empty_dataset) None, FoundMissing)
    | Some (text, mtime) =>
        match json_load text with
        | None => (None, g, ReadAndParsed)
        | Some data =>
            (Some data, mkGlobals Json data (Some mtime), ReadAndParsed)
        end
    end.
Proof.
  unfold _load_wc2026_data.
  destruct force; [right; reflexivity |].
  destruct (_wc2026_cache Json g) as [| cached] eqn:Hcache;
    [right; reflexivity |].
  destruct (same_mtime (st_mtime file) (_wc2026_mtime Json g)) eqn:Hsame;
    [| right; reflexivity].
  left. exists cached. apply same_mtime_true in Hsame. auto.
Qed.

(** X19: when [_load_wc2026_data] returns data other than [None],
    forced or not, the data is what the globals hold afterwards, with
    the modification time of the file as it is (none for a missing
    file); and a [get_wc2026] that follows, the file being untouched,
    returns the same data without opening the file. *)
Theorem load_wc2026_data_cached (file : DataFile) (force : bool)
  (g g' : Globals Json) (data : Json) (access : file_access) :
  _load_wc2026_data Json json_load empty_dataset file force g
    = (Some (Value data), g', access) ->
  _wc2026_cache Json g' = Value data /\
  _wc2026_mtime Json g' = st_mtime file /\
  get_wc2026 Json json_load empty_dataset file g'
    = (Some (Value data), g', NotRead).
Proof.
  intros Hload.
  assert (Hg' : _wc2026_cache Json g' = Value data /\
                _wc2026_mtime Json g' = st_mtime file).
  { destruct (load_wc2026_data_paths file force g)
      as [(cached & _ & Hcache & Hsame & Hfast) | Hfile];
      [rewrite Hfast in Hload | rewrite Hfile in Hload].
    - injection Hload as <- <- _. split; [exact Hcache | symmetry; exact Hsame].
    - destruct file as [[text mtime] |].
      + destruct (json_load text); [| discriminate].
        injection Hload as -> <- _. split; reflexivity.
      + injection Hload as <- <- _. split; reflexivity. }
  destruct Hg' as [Hc Hm]. split; [exact Hc |]. split; [exact Hm |].
  unfold get_wc2026, _load_wc2026_data. rewrite Hc, Hm.
  rewrite (proj2 (same_mtime_true _ _) eq_refl). reflexivity.
Qed.

(** X23: when [_load_wc2026_data] returns [None], the file is there
    and holds [null]; [_wc2026_cache] is [None] afterwards, so the
    [get_wc2026] that follows opens and parses the file again, modified
    or not. *)
Theorem load_wc2026_data_null (file : DataFile) (force : bool)
  (g g' : Globals Json) (access : file_access) :
  _load_wc2026_data Json json_load empty_dataset file force g
    = (Some PyNone, g', access) ->
  _wc2026_cache Json g' = PyNone /\ access = ReadAndParsed /\
  (exists text mtime,
     file = Some (text, mtime) /\ json_load text = Some PyNone) /\
  get_wc2026 Json json_load empty_dataset file g'
    = (Some PyNone, g', ReadAndParsed).
Proof.
  intros Hload.
  destruct (load_wc2026_data_paths file force g)
    as [(cached & _ & _ & _ & Hfast) | Hfile];
    [rewrite Hfast in Hload; discriminate | rewrite Hfile in Hload].
  destruct file as [[text mtime] |]; [| discriminate].
  destruct (json_load text) as [data |] eqn:Hparse; [| discriminate].
  injection Hload as -> <- <-.
  split; [reflexivity |]. split; [reflexivity |].
  split; [exists text, mtime; auto |].
  unfold get_wc2026, _load_wc2026_data. cbn. rewrite Hparse. reflexivity.
Qed.

(** X20: [_load_wc2026_data] fails only on a file that is there and
    that [json.load] turns down; the globals are then what they were,
    so a file that does not parse never replaces the data held. *)
Theorem load_wc2026_data_failure (file : DataFile) (force : bool)
  (g g' : Globals Json) (access : file_access) :
  _load_wc2026_data Json json_load empty_dataset file force g
    = (None, g', access) ->
  g' = g /\ access = ReadAndParsed /\
  exists text mtime, file = Some (text, mtime) /\ json_load text = None.
Proof.
  unfold _load_wc2026_data.
  assert (Hreload :
    match file with
    | Some (text, mtime) =>
        match json_load text with
        | Some data0 =>
            (Some data0, mkGlobals Json data0 (Some mtime), ReadAndParsed)
        | None => (None, g, ReadAndParsed)
        end
    | None =>
        (Some (Value empty_dataset),
         mkGlobals Json (Value empty_dataset) None, FoundMissing)
    end = (None, g', access) ->
    g' = g /\ access = ReadAndParsed /\
    exists text mtime, file = Some (text, mtime) /\ json_load text = None).
  { destruct file as [[text mtime] |]; [| discriminate].
    destruct (json_load text) eqn:Hparse; [discriminate |].
    intros [= <- <-]. eauto 6. }
  destruct force; [exact Hreload |].
  destruct (_wc2026_cache Json g) as [| cached]; [exact Hreload |].
  destruct (same_mtime (st_mtime file) (_wc2026_mtime Json g));
    [discriminate | exact Hreload].
Qed.

End GatewayExtras.

Section GatewayExamples.

Import Gateway.

Lemma load_wc2026_data_cached_witness :
  get_wc2026 string text_as_json "none" (Some ("odds", 5))
    (mkGlobals string (Value "odds") (Some 5))
  = (Some (Value "odds"), mkGlobals string (Value "odds") (Some 5), NotRead).
Proof.
  apply (load_wc2026_data_cached string text_as_json "none"
           (Some ("odds", 5)) true (initial_globals string)
           (mkGlobals string (Value "odds") (Some 5)) "odds" ReadAndParsed).
  reflexivity.
Defined.

Lemma load_wc2026_data_null_witness :
  get_wc2026 string text_as_json "none" (Some ("null", 5))
    (mkGlobals string PyNone (Some 5))
  = (Some PyNone, mkGlobals string PyNone (Some 5), ReadAndParsed).
Proof.
  apply (load_wc2026_data_null string text_as_json "none"
           (Some ("null", 5)) true (initial_globals string)
           (mkGlobals string PyNone (Some 5)) ReadAndParsed).
  reflexivity.
Defined.

Lemma load_wc2026_data_failure_witness :
  mkGlobals string (Value "odds") (Some 5)
    = mkGlobals string (Value "odds") (Some 5) /\
  ReadAndParsed = ReadAndParsed /\
  exists text mtime,
    Some (EmptyString, 6) = Some (text, mtime) /\ text_as_json text = None.
Proof.
  apply (load_wc2026_data_failure string text_as_json "none"
           (Some (EmptyString, 6)) false
           (mkGlobals string (Value "odds") (Some 5))).
  unfold _load_wc2026_data. cbn.
  destruct (Req_dec_T 6 5); [lra | reflexivity].
Defined.

End GatewayExamples.

(** ** The scraper *)

Section ScraperExtras.

Import Scraper.

Variable urlparse : string -> string * string.
Variable session_get : string -> result Response.
Variable can_fetch : string -> string -> string -> bool.
Variable read_text : string -> result string.
Variable SAMPLE_HTML : string.

Abbreviation check_robots := (check_robots urlparse session_get can_fetch).
Abbreviation fetch_html := (fetch_html urlparse session_get can_fetch).
Abbreviation permitted := (permitted urlparse session_get can_fetch).
Abbreviation robots_url_of := (robots_url_of urlparse).
Abbreviation html_text_of :=
  (html_text_of urlparse session_get can_fetch read_text SAMPLE_HTML).

Lemma check_robots_cases (url : string) :
  (permitted url /\
   check_robots url = (Done tt, [HttpGet (robots_url_of url)])) \/
  (~ permitted url /\
   exists e, check_robots url = (Raised e, [HttpGet (robots_url_of url)])).
Proof.
  unfold check_robots, permitted.
  destruct (session_get (robots_url_of url)) as [resp | e] eqn:Hget.
  - destruct (Nat.leb_spec 400 (status_code resp)) as [Hbad | Hgood].
    + right. split; [| eauto]. intros (resp' & [= <-] & Hlt & _). lia.
    + destruct (can_fetch (text resp) USER_AGENT url) eqn:Hcan.
      * left. split; [| reflexivity]. exists resp. auto.
      * right. split; [| eauto].
        intros (resp' & [= <-] & _ & Hcan'). congruence.
  - right. split; [| eauto]. intros (resp' & Heq & _). discriminate.
Qed.

(** X21: [fetch_html] asks for robots.txt first.  Unless robots.txt
    came back with a status below 400 and lets the agent fetch the
    URL, it raises and robots.txt is the only request made.  When it
    returns a text, the page was requested second, its status was not
    between 400 and 599, the text is the page's, and the script slept
    afterwards exactly when the sleep asked for is positive. *)
Theorem fetch_html_guarded (url : string) (sleep_s : R) :
  (~ permitted url ->
   exists e,
     fetch_html url sleep_s = (Raised e, [HttpGet (robots_url_of url)])) /\
  (forall page effects,
     fetch_html url sleep_s = (Done page, effects) ->
     permitted url /\
     (exists resp,
        session_get url = Done resp /\ text resp = page /\
        ~ (400 <= status_code resp < 600)%nat) /\
     effects =
       [HttpGet (robots_url_of url); HttpGet url] ++
       (if Rlt_dec 0 sleep_s then [Sleep sleep_s] else [])).
Proof.
  unfold Scraper.fetch_html. fold (check_robots url).
  destruct (check_robots_cases url) as [[Hperm ->] | [Hnot [e ->]]].
  - split; [intros Hn; contradiction |].
    intros page effects.
    destruct (session_get url) as [resp | e] eqn:Hget; [| discriminate].
    unfold raise_for_status.
    destruct (andb _ _) eqn:Hrange; [discriminate |].
    assert (Hstatus : ~ (400 <= status_code resp < 600)%nat).
    { intros [Hlo Hhi]. apply andb_false_iff in Hrange as [Hf | Hf].
      - apply Nat.leb_gt in Hf. lia.
      - apply Nat.ltb_ge in Hf. lia. }
    destruct (Rlt_dec 0 sleep_s); intros [= <- <-];
      (split; [exact Hperm |]); (split; [eauto |]); reflexivity.
  - split; [eauto |]. intros page effects Heq. discriminate.
Qed.

(** X22: whatever the arguments, an HTTP request made while getting
    the HTML means that no [--html-file] was given, that
    [--source-url] was given and not empty, and that its netloc is on
    the allow-list; the request is then for robots.txt of that URL,
    or for the URL itself once robots.txt permits it.  With an
    [--html-file], or without a URL, only a file is read. *)
Theorem html_text_of_guarded (args : Args) :
  (forall requested,
     HttpGet requested ∈ snd (html_text_of args) ->
     html_file args = None /\
     exists url,
       source_url args = Some url /\ url <> EmptyString /\
       snd (urlparse url) ∈ allow_domains args /\
       (requested = robots_url_of url \/
        requested = url /\ permitted url)) /\
  (forall path, html_file args = Some path ->
     html_text_of args = (read_text path, [ReadText path])) /\
  (html_file args = None ->
   source_url args = None \/ source_url args = Some EmptyString ->
   html_text_of args = (read_text SAMPLE_HTML, [ReadText SAMPLE_HTML])).
Proof.
  unfold Scraper.html_text_of.
  split; [| split].
  - intros requested.
    destruct (html_file args) as [path |].
    { cbn. intros Hin. apply list_elem_of_singleton in Hin. discriminate. }
    destruct (source_url args) as [[| c rest] |];
      try (cbn; intros Hin; apply list_elem_of_singleton in Hin;
           discriminate).
    set (url := String c rest).
    unfold ensure_domain_allowed.
    destruct (allow_domains args) as [| dom doms] eqn:Hallow.
    { cbn. intros Hin. inversion Hin. }
    destruct (decide (snd (urlparse url) ∈ dom :: doms)) as [Hdom | Hdom].
    2:{ cbn. intros Hin. inversion Hin. }
    intros Hin. split; [reflexivity |]. exists url.
    split; [reflexivity |]. split; [discriminate |]. split; [exact Hdom |].
    fold (fetch_html url (sleep args)) in Hin.
    destruct (check_robots_cases url) as [[Hperm Hrobots] | [Hnot [e Hrobots]]].
    + unfold Scraper.fetch_html in Hin. fold (check_robots url) in Hin.
      rewrite Hrobots in Hin.
      assert (Hcases : requested = robots_url_of url \/ requested = url).
      { destruct (session_get url) as [resp | e'].
        - destruct (raise_for_status resp).
          + destruct (Rlt_dec 0 (sleep args)); cbn in Hin;
              repeat (apply elem_of_cons in Hin as [Hin | Hin]);
              try (injection Hin as ->; auto); try discriminate;
              inversion Hin.
          + cbn in Hin.
            repeat (apply elem_of_cons in Hin as [Hin | Hin]);
              try (injection Hin as ->; auto); inversion Hin.
        - cbn in Hin.
          repeat (apply elem_of_cons in Hin as [Hin | Hin]);
            try (injection Hin as ->; auto); inversion Hin. }
      destruct Hcases as [-> | ->]; auto.
    + unfold Scraper.fetch_html in Hin. fold (check_robots url) in Hin.
      rewrite Hrobots in Hin. cbn in Hin.
      apply list_elem_of_singleton in Hin. injection Hin as ->. auto.
  - intros path ->. reflexivity.
  - intros -> [-> | ->]; reflexivity.
Qed.

End ScraperExtras.

Section ScraperExamples.

Import Scraper.

Lemma open_site_fetch :
  fetch_html open_urlparse open_session_get open_can_fetch
    "https://www.fifa.com/wc2026" 1 =
  (Done "page",
   [HttpGet "https://www.fifa.com/robots.txt";
    HttpGet "https://www.fifa.com/wc2026"; Sleep 1]).
Proof.
  unfold fetch_html, check_robots, raise_for_status. cbn.
  destruct (Rlt_dec 0 1); [reflexivity | lra].
Qed.

Lemma fetch_html_guarded_witness :
  permitted open_urlparse open_session_get open_can_fetch
    "https://www.fifa.com/wc2026" /\
  (exists resp,
     open_session_get "https://www.fifa.com/wc2026" = Done resp /\
     text resp = "page" /\ ~ (400 <= status_code resp < 600)%nat) /\
  [HttpGet "https://www.fifa.com/robots.txt";
   HttpGet "https://www.fifa.com/wc2026"; Sleep 1] =
    [HttpGet (robots_url_of open_urlparse "https://www.fifa.com/wc2026");
     HttpGet "https://www.fifa.com/wc2026"] ++
    (if Rlt_dec 0 1 then [Sleep 1] else []).
Proof.
  exact (proj2 (fetch_html_guarded open_urlparse open_session_get
                  open_can_fetch "https://www.fifa.com/wc2026" 1)
           _ _ open_site_fetch).
Defined.

Lemma html_text_of_guarded_witness :
  html_file fifa_args = None /\
  exists url,
    source_url fifa_args = Some url /\ url <> EmptyString /\
    snd (open_urlparse url) ∈ allow_domains fifa_args /\
    ("https://www.fifa.com/wc2026" = robots_url_of open_urlparse url \/
     "https://www.fifa.com/wc2026" = url /\
     permitted open_urlparse open_session_get open_can_fetch url).
Proof.
  apply (proj1 (html_text_of_guarded open_urlparse open_session_get
                  open_can_fetch open_read_text "sample.html" fifa_args)).
  unfold html_text_of, ensure_domain_allowed. cbn [html_file source_url
    fifa_args allow_domains sleep].
  rewrite decide_True by (cbn; apply list_elem_of_singleton; reflexivity).
  rewrite open_site_fetch. cbn. apply elem_of_cons. right.
  apply elem_of_cons. left. reflexivity.
Defined.

End ScraperExamples.
